(** * Album 3 Instagram automation: the four scripts, embedded and verified

    The repository is four Python scripts that chain outbound HTTP calls:
    - [scripts/exchange_token.py]        (module [ExchangeToken])
    - [scripts/github_uploader.py]       (module [GithubUploader])
    - [scripts/post_story.py]            (module [PostStory])
    - [scripts/upload_and_post_story.py] (module [UploadAndPostStory])

    Every function is embedded as a computation in a small monad [M] that
    threads the index of the next HTTP exchange, records the observable
    events (requests, sleeps, console lines) in program order, and ends in
    a return value, an uncaught exception, [sys.exit] or fuel exhaustion
    (only the recursive status poll needs fuel). *)

From Stdlib Require Import ZArith QArith String Ascii List Lia.
From stdpp Require Import base option gmap strings.

Set Warnings "-register-all".
Local Open Scope string_scope.
Local Open Scope Z_scope.

(** ** Python values *)

(** What [response.json()] can produce, which is also all the scripts ever
    pass around: [JNull] is Python's [None], numbers are kept exact. *)
Inductive json : Type :=
| JNull
| JBool (b : bool)
| JNum (q : Q)
| JStr (s : string)
| JArr (l : list json)
| JObj (o : gmap string json).

Abbreviation dict := (gmap string json).

(** [requests.Response]: only the three attributes the scripts read.
    [body] is the parsed JSON of the payload, [None] when it is not JSON. *)
Record response : Type := mkResponse {
  status_code : Z;
  text : string;
  body : option json
}.

(** Outcome of one HTTP exchange, as the [requests] library reports it. *)
Inductive reply : Type :=
| ConnectionError
| Response (r : response).

(** The exceptions the scripts can meet; all derive from [Exception].
    [RequestException] carries the [e.response] attribute. *)
Inductive exn : Type :=
| RequestException (resp : option response)
| KeyError (key : string)
| TypeError
| AttributeError
| OSError.

(** An f-string: literal chunks and interpolated values, left to right. *)
Inductive part : Type :=
| Lit (s : string)
| Val (v : json)
| Exn (e : exn)
| Fixed (digits : nat) (q : Q).

Abbreviation fstring := (list part).

(** ** Observable events *)

Inductive method : Type := GET | POST | PUT.

Inductive payload : Type :=
| NoBody
| FormData (d : dict)
| JsonData (d : dict).

Record request : Type := mkRequest {
  meth : method;
  url : fstring;
  params : gmap string string;
  headers : gmap string fstring;
  data : payload
}.

Inductive stream : Type := Stdout | Stderr.

Inductive event : Type :=
| Request (rq : request)
| Sleep (seconds : Z)
| Print (to : stream) (line : fstring).

(** The requests among a run's events, in order. *)
Fixpoint requests_of (l : list event) : list request :=
  match l with
  | [] => []
  | Request rq :: l' => rq :: requests_of l'
  | _ :: l' => requests_of l'
  end.

(** ** The outside world *)

Record file : Type := mkFile {
  isfile : bool;            (* os.path.isfile *)
  getsize : Z;              (* os.path.getsize *)
  content : list Byte.byte  (* open(path, 'rb').read() *)
}.

(** [replies k] answers the [k]-th HTTP exchange of the process;
    [files] is the file system, [None] for a path that does not exist. *)
Record world : Type := mkWorld {
  replies : nat → reply;
  files : string → option file
}.

(** ** The monad *)

Inductive outcome (A : Type) : Type :=
| Return (a : A)
| Raise (e : exn)
| SysExit (code : Z)
| OutOfFuel.
Arguments Return {A} a.
Arguments Raise {A} e.
Arguments SysExit {A} code.
Arguments OutOfFuel {A}.

(** A finished run: how it ended, the index of the next HTTP exchange,
    and the events it produced. *)
Record ran (A : Type) : Type := Ran {
  result : outcome A;
  next : nat;
  events : list event
}.
Arguments Ran {A} result next events.
Arguments result {A} r.
Arguments next {A} r.
Arguments events {A} r.

Definition M (A : Type) : Type := world → nat → ran A.

Definition ret {A} (a : A) : M A := λ _ n, Ran (Return a) n [].

Definition bind {A B} (m : M A) (k : A → M B) : M B := λ w n,
  match m w n with
  | Ran (Return a) n1 l1 =>
      match k a w n1 with Ran o n2 l2 => Ran o n2 (l1 ++ l2) end
  | Ran (Raise e) n1 l1 => Ran (Raise e) n1 l1
  | Ran (SysExit c) n1 l1 => Ran (SysExit c) n1 l1
  | Ran OutOfFuel n1 l1 => Ran OutOfFuel n1 l1
  end.

#[global] Instance M_ret : MRet M := @ret.
#[global] Instance M_bind : MBind M := λ A B k m, bind m k.

Definition raise {A} (e : exn) : M A := λ _ n, Ran (Raise e) n [].
Definition sys_exit {A} (code : Z) : M A := λ _ n, Ran (SysExit code) n [].
Definition out_of_fuel {A} : M A := λ _ n, Ran OutOfFuel n [].
Definition emit (ev : event) : M unit := λ _ n, Ran (Return tt) n [ev].

Definition print (line : fstring) : M unit := emit (Print Stdout line).
Definition eprint (line : fstring) : M unit := emit (Print Stderr line).
Definition time_sleep (seconds : Z) : M unit := emit (Sleep seconds).

(** [try: m except ...: h]: the handler [h] says which exceptions the
    [except] clauses catch.  [sys.exit] raises [SystemExit], which is not
    an [Exception], so it passes through every handler of the scripts. *)
Definition try_except {A} (m : M A) (h : exn → option (M A)) : M A := λ w n,
  match m w n with
  | Ran (Raise e) n1 l1 =>
      match h e with
      | Some k => match k w n1 with Ran o n2 l2 => Ran o n2 (l1 ++ l2) end
      | None => Ran (Raise e) n1 l1
      end
  | r => r
  end.

(** [except requests.exceptions.RequestException as e: k e] *)
Definition except_RequestException {A} (k : exn → M A) : exn → option (M A) :=
  λ e, match e with
       | RequestException _ => Some (k e)
       | _ => None
       end.

(** [except RequestException as e: k1 e] followed by
    [except Exception as e: k2 e] *)
Definition except_RequestException_or_Exception {A}
    (k1 k2 : exn → M A) : exn → option (M A) :=
  λ e, match e with
       | RequestException _ => Some (k1 e)
       | _ => Some (k2 e)
       end.

(** [except Exception as e: k e] *)
Definition except_Exception {A} (k : exn → M A) : exn → option (M A) :=
  λ e, Some (k e).

(** [requests.get/post/put]: one exchange, answered by the world. *)
Definition send (rq : request) : M response := λ w n,
  match replies w n with
  | ConnectionError => Ran (Raise (RequestException None)) (S n) [Request rq]
  | Response r => Ran (Return r) (S n) [Request rq]
  end.

Definition is_http_error (code : Z) : bool := (400 <=? code) && (code <? 600).

(** [response.raise_for_status()] *)
Definition raise_for_status (r : response) : M unit :=
  if is_http_error (status_code r) then raise (RequestException (Some r))
  else ret tt.

(** [response.json()]; a body that is not JSON raises
    [requests.exceptions.JSONDecodeError], a [RequestException]. *)
Definition response_json (r : response) : M json :=
  match body r with
  | Some v => ret v
  | None => raise (RequestException None)
  end.

(** [os.path.exists], [os.path.isfile], [os.path.getsize], [f.read()] *)
Definition os_path_exists (path : string) : M bool := λ w n,
  Ran (Return (match files w path with Some _ => true | None => false end)) n [].
Definition os_path_isfile (path : string) : M bool := λ w n,
  Ran (Return (match files w path with Some f => isfile f | None => false end)) n [].
Definition os_path_getsize (path : string) : M Z := λ w n,
  match files w path with
  | Some f => Ran (Return (getsize f)) n []
  | None => Ran (Raise OSError) n []
  end.
Definition read_file (path : string) : M (list Byte.byte) := λ w n,
  match files w path with
  | Some f => Ran (Return (content f)) n []
  | None => Ran (Raise OSError) n []
  end.

(** ** Python operators on JSON values *)

(** [v == s] for a string literal [s] *)
Definition py_eq_str (v : json) (s : string) : bool :=
  match v with JStr t => String.eqb t s | _ => false end.

(** [v is None] *)
Definition is_none (v : json) : bool :=
  match v with JNull => true | _ => false end.

(** [bool(v)] *)
Definition truthy (v : json) : bool :=
  match v with
  | JNull => false
  | JBool b => b
  | JNum q => negb (Qeq_bool q 0)
  | JStr s => negb (String.eqb s EmptyString)
  | JArr l => match l with [] => false | _ => true end
  | JObj o => negb (bool_decide (o = ∅))
  end.

(** [v.get(k)]: only a dict has [get] *)
Definition py_get (v : json) (k : string) : M json :=
  match v with
  | JObj o => ret (default JNull (o !! k))
  | _ => raise AttributeError
  end.

(** [k in v] *)
Definition py_in (k : string) (v : json) : M bool :=
  match v with
  | JObj o => ret (match o !! k with Some _ => true | None => false end)
  | JArr l => ret (existsb (λ x, py_eq_str x k) l)
  | JStr s => ret (match index 0 k s with Some _ => true | None => false end)
  | _ => raise TypeError
  end.

(** [v[k]] for a string key [k] *)
Definition py_getitem (v : json) (k : string) : M json :=
  match v with
  | JObj o => match o !! k with Some x => ret x | None => raise (KeyError k) end
  | _ => raise TypeError
  end.

(** The numeric value of [v], if it has one; [bool] is a subclass of [int]. *)
Definition as_number (v : json) : option Q :=
  match v with
  | JNum q => Some q
  | JBool b => Some (if b then 1 else 0)%Q
  | _ => None
  end.

(** [v / d] for a numeric literal [d], kept exact *)
Definition py_truediv (v : json) (d : Q) : M Q :=
  match as_number v with
  | Some q => ret (q / d)%Q
  | None => raise TypeError
  end.

(** [os.path.basename] on POSIX: what follows the last slash *)
Fixpoint basename (path : string) : string :=
  match path with
  | EmptyString => EmptyString
  | String c rest =>
      if Ascii.eqb c "/"%char then basename rest
      else match index 0 "/" rest with
           | Some _ => basename rest
           | None => path
           end
  end.

(** The body a successful exchange hands to the caller of
    [raise_for_status(); json()]. *)
Definition ok_json (rp : reply) : option json :=
  match rp with
  | ConnectionError => None
  | Response r => if is_http_error (status_code r) then None else body r
  end.

(** A line feed, for the literal chunks that contain one. *)
Definition nl : string := String "010"%char EmptyString.

(** ** scripts/exchange_token.py *)

Module ExchangeToken.

Definition exchange_token (short_lived_token app_id app_secret : string) : M json :=
  let url : fstring := [Lit "https://graph.facebook.com/v19.0/oauth/access_token"] in
  let params : gmap string string :=
    {[ "grant_type" := "fb_exchange_token";
       "client_id" := app_id;
       "client_secret" := app_secret;
       "fb_exchange_token" := short_lived_token ]} in
  try_except
    (response ← send (mkRequest GET url params ∅ NoBody);
     raise_for_status response;;
     result ← response_json response;
     has_token ← py_in "access_token" result;
     if has_token : bool then
       print [Lit nl; Lit "✅ Successfully exchanged token!"];;
       print [Lit nl; Lit "📋 Long-lived token (valid for ~60 days):"];;
       token ← py_getitem result "access_token";
       print [Val token; Lit nl];;
       has_expiry ← py_in "expires_in" result;
       (if has_expiry : bool then
          expires_in ← py_getitem result "expires_in";
          days ← py_truediv expires_in 86400;
          print [Lit "⏰ Expires in: "; Fixed 0 days; Lit " days"; Lit nl]
        else mret tt);;
       print [Lit "💡 Add this to your .env file as INSTAGRAM_ACCESS_TOKEN"];;
       py_getitem result "access_token"
     else
       print [Lit "❌ Error: "; Val result];;
       mret JNull)
    (except_RequestException (λ e,
       print [Lit "❌ Request failed: "; Exn e];;
       (* hasattr(e.response, 'text'): a Response has it, None does not *)
       match e with
       | RequestException (Some r) =>
           print [Lit "   Response: "; Val (JStr (text r))]
       | _ => mret tt
       end;;
       mret JNull)).

End ExchangeToken.

(** ** scripts/github_uploader.py *)

Module GithubUploader.
Section Script.
(** Module globals, read from the environment at import. *)
Variables (GITHUB_TOKEN GITHUB_REPO GITHUB_BRANCH : string).
(** [base64.b64encode(...).decode('utf-8')] *)
Variable b64encode : list Byte.byte → string.

Definition api_url (file_path_in_repo : string) : fstring :=
  [Lit "https://api.github.com/repos/"; Val (JStr GITHUB_REPO);
   Lit "/contents/"; Val (JStr file_path_in_repo)].

Definition api_headers : gmap string fstring :=
  {[ "Authorization" := [Lit "token "; Val (JStr GITHUB_TOKEN)];
     "Accept" := [Lit "application/vnd.github.v3+json"];
     "Content-Type" := [Lit "application/json"] ]}.

Definition upload_to_github (local_file_path : string) : M json :=
  present ← os_path_exists local_file_path;
  if negb present then
    eprint [Lit "Error: File not found at '"; Val (JStr local_file_path); Lit "'"];;
    sys_exit 1
  else
  regular ← os_path_isfile local_file_path;
  if negb regular then
    eprint [Lit "Error: '"; Val (JStr local_file_path); Lit "' is not a file"];;
    sys_exit 1
  else
  file_size ← os_path_getsize local_file_path;
  if file_size >? 100 * 1024 * 1024 then
    eprint [Lit "Error: File size ("; Fixed 1 (inject_Z file_size / 1024 / 1024)%Q;
            Lit "MB) exceeds GitHub's 100MB limit"];;
    sys_exit 1
  else
  let file_name := basename local_file_path in
  let file_path_in_repo := "media/" +:+ file_name in
  eprint [Lit "-> Uploading '"; Val (JStr file_name); Lit "' (";
          Fixed 1 (inject_Z file_size / 1024 / 1024)%Q; Lit "MB) to GitHub..."];;
  try_except
    (file_content ← read_file local_file_path;
     let encoded_content := b64encode file_content in
     let api_url := api_url file_path_in_repo in
     let headers := api_headers in
     let data : dict :=
       {[ "message" := JStr ("Upload " +:+ file_name +:+ " via Album 3 Instagram automation");
          "content" := JStr encoded_content;
          "branch" := JStr GITHUB_BRANCH ]} in
     (* Check if file already exists *)
     response ← send (mkRequest GET api_url ∅ headers NoBody);
     data ← (if status_code response =? 200 then
               existing_file ← response_json response;
               sha ← py_getitem existing_file "sha";
               mret (<["message" := JStr ("Update " +:+ file_name +:+ " via Album 3 Instagram automation")]>
                       (<["sha" := sha]> data))
             else mret data);
     (* Upload/create file *)
     response ← send (mkRequest PUT api_url ∅ headers (JsonData data));
     if (status_code response =? 200) || (status_code response =? 201) then
       result ← response_json response;
       content ← py_getitem result "content";
       raw_url ← py_getitem content "download_url";
       eprint [Lit "-> File uploaded successfully."];;
       mret raw_url
     else
       eprint [Lit "Error uploading to GitHub: ";
               Val (JNum (inject_Z (status_code response)));
               Lit " - "; Val (JStr (text response))];;
       sys_exit 1)
    (except_RequestException_or_Exception
       (λ e,
          eprint [Lit "Error: GitHub API request failed. Check your token and repo details."];;
          eprint [Lit "Details: "; Exn e];;
          sys_exit 1)
       (λ e,
          eprint [Lit "Unexpected error: "; Exn e];;
          sys_exit 1)).

Definition main (argv : list string) : M unit :=
  match argv with
  | [_; local_file_path] =>
      raw_url ← upload_to_github local_file_path;
      print [Val raw_url]
  | _ =>
      eprint [Lit "Usage: python github_uploader.py <local_file_path>"];;
      sys_exit 1
  end.
End Script.
End GithubUploader.

(** ** scripts/post_story.py *)

Module PostStory.
Section Script.
(** Module globals, read from the environment at import; the module
    exits at import when either is unset or empty. *)
Variables (ACCESS_TOKEN INSTAGRAM_ACCOUNT_ID : string).
(** [str.upper] *)
Variable upper : string → string.

Definition BASE_URL : string := "https://graph.facebook.com/v19.0".
Definition MEDIA_UPLOAD_URL : fstring :=
  [Val (JStr BASE_URL); Lit "/"; Val (JStr INSTAGRAM_ACCOUNT_ID); Lit "/media"].
Definition MEDIA_PUBLISH_URL : fstring :=
  [Val (JStr BASE_URL); Lit "/"; Val (JStr INSTAGRAM_ACCOUNT_ID); Lit "/media_publish"].
Definition STATUS_URL (container_id : json) : fstring :=
  [Val (JStr BASE_URL); Lit "/"; Val container_id].

Definition access_params : gmap string string :=
  {[ "access_token" := ACCESS_TOKEN ]}.

(** The [data] dict of [upload_media], as it stands when it is posted. *)
Definition upload_media_data (media_url : json) (media_type : string) : dict :=
  let data : dict :=
    <["media_url" := media_url]> (<["media_type" := JStr media_type]> ∅) in
  if String.eqb media_type "IMAGE" then
    <["is_share_to_story" := JBool true]> data
  else if String.eqb media_type "VIDEO" then
    <["is_share_to_story" := JBool true]>
      (<["media_type" := JStr "REELS"]> (<["video_url" := media_url]> data))
  else data.

Definition upload_media (media_url : json) (media_type : string) : M json :=
  print [Lit "Step 1: Uploading media..."];;
  let data := upload_media_data media_url media_type in
  try_except
    (response ← send (mkRequest POST MEDIA_UPLOAD_URL access_params ∅ (FormData data));
     raise_for_status response;;
     result ← response_json response;
     has_id ← py_in "id" result;
     if has_id : bool then
       id ← py_getitem result "id";
       print [Lit "✅ Media uploaded successfully. Container ID: "; Val id];;
       py_getitem result "id"
     else
       print [Lit "❌ Error uploading media: "; Val result];;
       mret JNull)
    (except_RequestException (λ e,
       print [Lit "❌ Network error uploading media: "; Exn e];;
       mret JNull)).

Definition publish_story (container_id : json) : M json :=
  print [Lit "Step 2: Publishing to Story..."];;
  let data : dict := {[ "creation_id" := container_id ]} in
  try_except
    (response ← send (mkRequest POST MEDIA_PUBLISH_URL access_params ∅ (FormData data));
     raise_for_status response;;
     result ← response_json response;
     has_id ← py_in "id" result;
     if has_id : bool then
       id ← py_getitem result "id";
       print [Lit "✅ Story published successfully! Media ID: "; Val id];;
       py_getitem result "id"
     else
       print [Lit "❌ Error publishing story: "; Val result];;
       mret JNull)
    (except_RequestException (λ e,
       print [Lit "❌ Network error publishing story: "; Exn e];;
       mret JNull)).

(** The recursion of the source has no bound; [fuel] bounds the number
    of activations, and a run that needs more ends in [OutOfFuel]. *)
Fixpoint check_media_status (fuel : nat) (container_id : json) : M bool :=
  match fuel with
  | O => out_of_fuel
  | S fuel' =>
      print [Lit "Step 1.5: Checking media status..."];;
      try_except
        (response ← send (mkRequest GET (STATUS_URL container_id) access_params ∅ NoBody);
         raise_for_status response;;
         result ← response_json response;
         status_code ← py_get result "status_code";
         if py_eq_str status_code "FINISHED" then
           print [Lit "✅ Media is ready for publishing."];;
           mret true
         else if py_eq_str status_code "IN_PROGRESS" then
           print [Lit "⏳ Media is still processing. Waiting..."];;
           time_sleep 5;;
           check_media_status fuel' container_id
         else if py_eq_str status_code "FAILED" then
           print [Lit "❌ Media processing failed: "; Val result];;
           mret false
         else
           print [Lit "⚠️ Unknown status: "; Val result];;
           mret false)
        (except_RequestException (λ e,
           print [Lit "❌ Error checking media status: "; Exn e];;
           mret false))
  end.

(** What [main] does once its two arguments are validated. *)
Definition post (fuel : nat) (media_url media_type : string) : M unit :=
  print [Lit "📱 Posting "; Val (JStr media_type); Lit " to Instagram Story..."];;
  print [Lit "🔗 Media URL: "; Val (JStr media_url)];;
  container_id ← upload_media (JStr media_url) media_type;
  if negb (truthy container_id) then
    print [Lit "❌ Failed to upload media. Aborting."];;
    sys_exit 1
  else
    ready ← check_media_status fuel container_id;
    if negb ready then
      print [Lit "❌ Media is not ready for publishing. Aborting."];;
      sys_exit 1
    else
      story_id ← publish_story container_id;
      if truthy story_id then
        print [Lit "🎉 Success! Your Instagram Story has been published."];;
        print [Lit "📱 Story ID: "; Val story_id];;
        print [Lit "💡 Note: Stories expire after 24 hours."];;
        print [Lit "💡 You can manually add this Story to Highlights in the Instagram app."]
      else
        print [Lit "❌ Failed to publish Story."];;
        sys_exit 1.

Definition main (fuel : nat) (argv : list string) : M unit :=
  match argv with
  | [_; arg1; arg2] =>
      let media_url := arg1 in
      let media_type := upper arg2 in
      if negb (String.eqb media_type "VIDEO" || String.eqb media_type "IMAGE") then
        print [Lit "❌ Invalid media type. Use 'VIDEO' or 'IMAGE'"];;
        sys_exit 1
      else
        post fuel media_url media_type
  | _ =>
      print [Lit "Usage: python post_story.py <public_media_url> <MEDIA_TYPE>"];;
      print [Lit "       MEDIA_TYPE should be 'VIDEO' or 'IMAGE'"];;
      sys_exit 1
  end.
End Script.
End PostStory.

(** ** scripts/upload_and_post_story.py *)

Module UploadAndPostStory.
Section Script.
(** Module globals of this script and of [github_uploader], which it
    imports. *)
Variables (ACCESS_TOKEN INSTAGRAM_ACCOUNT_ID : string).
Variables (GITHUB_TOKEN GITHUB_REPO GITHUB_BRANCH : string).
Variable b64encode : list Byte.byte → string.
(** [str.upper] *)
Variable upper : string → string.

Definition upload_to_github : string → M json :=
  GithubUploader.upload_to_github GITHUB_TOKEN GITHUB_REPO GITHUB_BRANCH b64encode.

Definition BASE_URL : string := "https://graph.facebook.com/v19.0".
Definition MEDIA_UPLOAD_URL : fstring :=
  [Val (JStr BASE_URL); Lit "/"; Val (JStr INSTAGRAM_ACCOUNT_ID); Lit "/media"].
Definition MEDIA_PUBLISH_URL : fstring :=
  [Val (JStr BASE_URL); Lit "/"; Val (JStr INSTAGRAM_ACCOUNT_ID); Lit "/media_publish"].
Definition STATUS_URL (container_id : json) : fstring :=
  [Val (JStr BASE_URL); Lit "/"; Val container_id].

Definition access_params : gmap string string :=
  {[ "access_token" := ACCESS_TOKEN ]}.

(** The [data] dict of [upload_media], as it stands when it is posted. *)
Definition upload_media_data (media_url : json) (media_type : string) : dict :=
  let data : dict := ∅ in
  if String.eqb media_type "IMAGE" then
    <["image_url" := media_url]> (<["media_type" := JStr "STORIES"]> data)
  else if String.eqb media_type "VIDEO" then
    <["video_url" := media_url]> (<["media_type" := JStr "STORIES"]> data)
  else data.

Definition upload_media (media_url : json) (media_type : string) : M json :=
  print [Lit "Step 2: Uploading media to Instagram..."];;
  let data := upload_media_data media_url media_type in
  try_except
    (response ← send (mkRequest POST MEDIA_UPLOAD_URL access_params ∅ (FormData data));
     result ← response_json response;
     if negb (status_code response =? 200) then
       print [Lit "❌ Instagram API Error (";
              Val (JNum (inject_Z (status_code response))); Lit "):"];;
       print [Lit "   Response: "; Val result];;
       mret JNull
     else
     has_id ← py_in "id" result;
     if has_id : bool then
       id ← py_getitem result "id";
       print [Lit "✅ Media uploaded successfully. Container ID: "; Val id];;
       py_getitem result "id"
     else
       print [Lit "❌ Error uploading media: "; Val result];;
       mret JNull)
    (except_RequestException (λ e,
       print [Lit "❌ Network error uploading media: "; Exn e];;
       mret JNull)).

Definition publish_story (container_id : json) : M json :=
  print [Lit "Step 3: Publishing to Story..."];;
  let data : dict := {[ "creation_id" := container_id ]} in
  try_except
    (response ← send (mkRequest POST MEDIA_PUBLISH_URL access_params ∅ (FormData data));
     raise_for_status response;;
     result ← response_json response;
     has_id ← py_in "id" result;
     if has_id : bool then
       id ← py_getitem result "id";
       print [Lit "✅ Story published successfully! Media ID: "; Val id];;
       py_getitem result "id"
     else
       print [Lit "❌ Error publishing story: "; Val result];;
       mret JNull)
    (except_RequestException (λ e,
       print [Lit "❌ Network error publishing story: "; Exn e];;
       mret JNull)).

Definition status_params : gmap string string :=
  {[ "access_token" := ACCESS_TOKEN; "fields" := "id,status_code" ]}.

(** As in [PostStory], [fuel] bounds the number of activations. *)
Fixpoint check_media_status (fuel : nat) (container_id : json)
    (media_type : string) : M bool :=
  match fuel with
  | O => out_of_fuel
  | S fuel' =>
      print [Lit "Step 2.5: Checking media status..."];;
      try_except
        (response ← send (mkRequest GET (STATUS_URL container_id) status_params ∅ NoBody);
         raise_for_status response;;
         result ← response_json response;
         status_code ← py_get result "status_code";
         (* For Stories with images, status_code might not be returned *)
         if is_none status_code && String.eqb media_type "IMAGE" then
           print [Lit "✅ Media is ready for publishing (Stories don't require status check)."];;
           mret true
         else
         if py_eq_str status_code "FINISHED" then
           print [Lit "✅ Media is ready for publishing."];;
           mret true
         else if py_eq_str status_code "IN_PROGRESS" then
           print [Lit "⏳ Media is still processing. Waiting..."];;
           time_sleep 5;;
           check_media_status fuel' container_id media_type
         else if py_eq_str status_code "FAILED" then
           print [Lit "❌ Media processing failed: "; Val result];;
           mret false
         else
           print [Lit "⚠️ Unknown status: "; Val result];;
           (* For Stories, proceed anyway if we have an ID *)
           has_id ← py_in "id" result;
           if has_id : bool then
             print [Lit "✅ Proceeding with publication..."];;
             mret true
           else mret false)
        (except_RequestException (λ e,
           print [Lit "❌ Error checking media status: "; Exn e];;
           mret false))
  end.

(** What [main] does once its two arguments are validated. *)
Definition upload_and_post (fuel : nat) (local_file_path media_type : string) : M unit :=
  present ← os_path_exists local_file_path;
  if negb present then
    print [Lit "❌ File not found: "; Val (JStr local_file_path)];;
    sys_exit 1
  else
  print [Lit "📱 Uploading and posting "; Val (JStr media_type); Lit " to Instagram Story..."];;
  print [Lit "📁 Local file: "; Val (JStr local_file_path)];;
  media_url ←
    try_except
      (print [Lit "Step 1: Uploading to GitHub..."];;
       media_url ← upload_to_github local_file_path;
       print [Lit "✅ File uploaded to GitHub"];;
       print [Lit "🔗 Public URL: "; Val media_url];;
       mret media_url)
      (except_Exception (λ e,
         print [Lit "❌ Failed to upload to GitHub: "; Exn e];;
         sys_exit 1));
  container_id ← upload_media media_url media_type;
  if negb (truthy container_id) then
    print [Lit "❌ Failed to upload media to Instagram. Aborting."];;
    sys_exit 1
  else
    ready ← check_media_status fuel container_id media_type;
    if negb ready then
      print [Lit "❌ Media is not ready for publishing. Aborting."];;
      sys_exit 1
    else
      story_id ← publish_story container_id;
      if truthy story_id then
        print [Lit "🎉 Success! Your Instagram Story has been published."];;
        print [Lit "📱 Story ID: "; Val story_id];;
        print [Lit "🔗 Media hosted at: "; Val media_url];;
        print [Lit "💡 Note: Stories expire after 24 hours."];;
        print [Lit "💡 You can manually add this Story to Highlights in the Instagram app."]
      else
        print [Lit "❌ Failed to publish Story."];;
        sys_exit 1.

Definition main (fuel : nat) (argv : list string) : M unit :=
  match argv with
  | [_; arg1; arg2] =>
      let local_file_path := arg1 in
      let media_type := upper arg2 in
      if negb (String.eqb media_type "VIDEO" || String.eqb media_type "IMAGE") then
        print [Lit "❌ Invalid media type. Use 'VIDEO' or 'IMAGE'"];;
        sys_exit 1
      else
        upload_and_post fuel local_file_path media_type
  | _ =>
      print [Lit "Usage: python upload_and_post_story.py <local_file_path> <MEDIA_TYPE>"];;
      print [Lit "       MEDIA_TYPE should be 'VIDEO' or 'IMAGE'"];;
      sys_exit 1
  end.
End Script.
End UploadAndPostStory.

(** ** The rest of the scripts: module-level code and the interactive entry point *)

(** *** The [.env] loader (github_uploader.py and upload_and_post_story.py)

    Both scripts read [.env] line by line at import and store every
    assignment they find in [os.environ]. *)

Module DotEnv.
Section Loader.
(** [str.strip] *)
Variable strip : string → string.




End Loader.
End DotEnv.

(** *** post_story.py as a script: the configuration guard, then [main] *)

Module PostStoryScript.
Section Script.
(** [str.upper] *)
Variable upper : string → string.

(** [not v] for a value returned by [os.getenv] *)
Definition unset (v : option string) : bool :=
  match v with
  | None => true
  | Some s => String.eqb s EmptyString
  end.

Definition script (environ : gmap string string) (fuel : nat)
    (argv : list string) : M unit :=
  let ACCESS_TOKEN := environ !! "INSTAGRAM_ACCESS_TOKEN" in
  let INSTAGRAM_ACCOUNT_ID := environ !! "INSTAGRAM_ACCOUNT_ID" in
  if unset ACCESS_TOKEN || unset INSTAGRAM_ACCOUNT_ID then
    print [Lit "❌ Error: INSTAGRAM_ACCESS_TOKEN and INSTAGRAM_ACCOUNT_ID must be set in environment variables"];;
    print [Lit "   Create a .env file in the project root with these values"];;
    sys_exit 1
  else
    PostStory.main (default EmptyString ACCESS_TOKEN)
                   (default EmptyString INSTAGRAM_ACCOUNT_ID) upper fuel argv.
End Script.
End PostStoryScript.

(** *** exchange_token.py: the interactive [main]

    [stdin k] is the [k]-th line the operator types (end of input is not
    modelled); [input(prompt)] writes its prompt to stdout. *)

Module ExchangeTokenMain.
Section Script.
(** [str.strip] *)
Variable strip : string → string.
Variable stdin : nat → string.

Definition blank (s : string) : bool := String.eqb s EmptyString.

Definition main : M unit :=
  print [Lit nl; Lit "🔄 Instagram Token Exchange Tool"; Lit nl];;
  print [Lit "This will exchange a short-lived token (1 hour) for a long-lived token (60 days)"; Lit nl];;
  print [Lit "You'll need:"];;
  print [Lit "1. Your Facebook App ID (from https://developers.facebook.com/apps/)"];;
  print [Lit "2. Your Facebook App Secret (from the same page)"];;
  print [Lit "3. A short-lived token (from Graph API Explorer)"; Lit nl];;
  print [Lit "Enter your Facebook App ID: "];;
  let app_id := strip (stdin 0%nat) in
  print [Lit "Enter your Facebook App Secret: "];;
  let app_secret := strip (stdin 1%nat) in
  print [Lit "Enter your short-lived token: "];;
  let short_lived_token := strip (stdin 2%nat) in
  if blank app_id || blank app_secret || blank short_lived_token then
    print [Lit nl; Lit "❌ All fields are required!"];;
    sys_exit 1
  else
    print [Lit nl; Lit "🔄 Exchanging token..."];;
    long_lived_token ← ExchangeToken.exchange_token short_lived_token app_id app_secret;
    if negb (truthy long_lived_token) then
      print [Lit nl; Lit "❌ Token exchange failed. Please check your credentials."];;
      sys_exit 1
    else mret tt.
End Script.
End ExchangeTokenMain.

(** * Verified properties *)

Local Close Scope Z_scope.

(** ** Reasoning about runs *)

(** [after l r]: the run [r] with the events [l] in front of its own. *)
Definition after {A} (l : list event) (r : ran A) : ran A :=
  Ran (result r) (next r) (l ++ events r).

Ltac unfold_M :=
  unfold mbind, mret, M_bind, M_ret, bind, ret, raise, sys_exit, out_of_fuel,
    print, eprint, time_sleep, emit.

Lemma emit_bind {A} (ev : event) (m : M A) w n :
  bind (emit ev) (λ _, m) w n = after [ev] (m w n).
Proof. unfold bind, emit, after. by destruct (m w n). Qed.

Lemma print_bind {A} (line : fstring) (m : M A) w n :
  (print line;; m) w n = after [Print Stdout line] (m w n).
Proof. apply emit_bind. Qed.

Lemma eprint_bind {A} (line : fstring) (m : M A) w n :
  (eprint line;; m) w n = after [Print Stderr line] (m w n).
Proof. apply emit_bind. Qed.

(** A successful exchange: the request goes out, the parsed body comes
    back, and the continuation runs against the next reply. *)
Lemma fetch_ok {A} (rq : request) (k : json → M A) w n v :
  ok_json (replies w n) = Some v →
  (response ← send rq;
   raise_for_status response;;
   result ← response_json response;
   k result) w n
  = after [Request rq] (k v w (S n)).
Proof.
  intros H. unfold mbind, M_bind, bind, send, after.
  destruct (replies w n) as [|r]; simpl in H; [done|].
  unfold raise_for_status, response_json.
  destruct (is_http_error (status_code r)); [done|].
  rewrite H. simpl. by destruct (k v w (S n)).
Qed.

(** An [except RequestException] clause whose body cannot itself raise
    one lets none escape. *)
Lemma except_RequestException_catches {A} (m : M A) (k : exn → M A) w n r :
  (∀ e w' n' r', result (k e w' n') ≠ Raise (RequestException r')) →
  result (try_except m (except_RequestException k) w n) ≠ Raise (RequestException r).
Proof.
  intros Hk. unfold try_except, except_RequestException.
  destruct (m w n) as [[a|e|c|] n1 l1]; simpl; try done.
  destruct e; simpl; try done.
  specialize (Hk (RequestException resp) w n1 r).
  by destruct (k _ w n1).
Qed.

Lemma result_after {A} (l : list event) (r : ran A) :
  result (after l r) = result r.
Proof. done. Qed.

(** ** The status poll *)

Definition poll_request1 (tok : string) (cid : json) : request :=
  mkRequest GET (PostStory.STATUS_URL cid) (PostStory.access_params tok) ∅ NoBody.

Definition poll_request2 (tok : string) (cid : json) : request :=
  mkRequest GET (UploadAndPostStory.STATUS_URL cid)
            (UploadAndPostStory.status_params tok) ∅ NoBody.

(** The first reply at index [n] is a successful poll whose JSON object
    [res] reports [status] under the key [status_code]. *)
Definition polled (w : world) (n : nat) (res : dict) (status : string) : Prop :=
  ok_json (replies w n) = Some (JObj res) ∧
  res !! "status_code" = Some (JStr status).

Lemma check1_no_request_exn tok fuel cid w n r :
  result (PostStory.check_media_status tok fuel cid w n) ≠ Raise (RequestException r).
Proof.
  destruct fuel as [|fuel]; [done|].
  cbn [PostStory.check_media_status]. rewrite print_bind, result_after.
  apply except_RequestException_catches. by intros.
Qed.

Lemma check2_no_request_exn tok fuel cid mt w n r :
  result (UploadAndPostStory.check_media_status tok fuel cid mt w n)
  ≠ Raise (RequestException r).
Proof.
  destruct fuel as [|fuel]; [done|].
  cbn [UploadAndPostStory.check_media_status]. rewrite print_bind, result_after.
  apply except_RequestException_catches. by intros.
Qed.

Definition step1 : list event :=
  [Print Stdout [Lit "Step 1.5: Checking media status..."]].
Definition step2 : list event :=
  [Print Stdout [Lit "Step 2.5: Checking media status..."]].
Definition waiting : list event :=
  [Print Stdout [Lit "⏳ Media is still processing. Waiting..."]; Sleep 5].

Lemma check1_in_progress tok fuel cid w n res :
  polled w n res "IN_PROGRESS" →
  PostStory.check_media_status tok (S fuel) cid w n
  = after (step1 ++ [Request (poll_request1 tok cid)] ++ waiting)
          (PostStory.check_media_status tok fuel cid w (S n)).
Proof.
  intros [H1 H2]. cbn [PostStory.check_media_status]. rewrite print_bind.
  unfold try_except. rewrite (fetch_ok _ _ _ _ _ H1).
  cbn [py_get]. rewrite H2. unfold_M. cbn.
  pose proof (check1_no_request_exn tok fuel cid w (S n)) as Hne.
  destruct (PostStory.check_media_status tok fuel cid w (S n)) as [[a|e|c|] n2 l2];
    try done.
  destruct e; try done. by destruct (Hne resp).
Qed.

Lemma check2_in_progress tok fuel cid mt w n res :
  polled w n res "IN_PROGRESS" →
  UploadAndPostStory.check_media_status tok (S fuel) cid mt w n
  = after (step2 ++ [Request (poll_request2 tok cid)] ++ waiting)
          (UploadAndPostStory.check_media_status tok fuel cid mt w (S n)).
Proof.
  intros [H1 H2]. cbn [UploadAndPostStory.check_media_status]. rewrite print_bind.
  unfold try_except. rewrite (fetch_ok _ _ _ _ _ H1).
  cbn [py_get]. rewrite H2. unfold_M. cbn.
  pose proof (check2_no_request_exn tok fuel cid mt w (S n)) as Hne.
  destruct (UploadAndPostStory.check_media_status tok fuel cid mt w (S n))
    as [[a|e|c|] n2 l2]; try done.
  destruct e; try done. by destruct (Hne resp).
Qed.

(** Every activation of the poll opens with its console line and one
    status request, whatever the reply. *)
Ltac break_match :=
  match goal with
  | |- context [match ?x with _ => _ end] =>
      lazymatch x with
      | context [match _ with _ => _ end] => fail
      | _ => destruct x eqn:?
      end
  end.

Lemma check1_head tok fuel cid w n :
  ∃ l, events (PostStory.check_media_status tok (S fuel) cid w n)
       = (step1 ++ Request (poll_request1 tok cid) :: l)%list.
Proof.
  cbn [PostStory.check_media_status]. rewrite print_bind.
  unfold try_except, except_RequestException, raise_for_status, response_json,
    py_get.
  unfold_M. unfold send, after.
  repeat (break_match; simplify_eq/=); eexists; reflexivity.
Qed.

Lemma check2_head tok fuel cid mt w n :
  ∃ l, events (UploadAndPostStory.check_media_status tok (S fuel) cid mt w n)
       = (step2 ++ Request (poll_request2 tok cid) :: l)%list.
Proof.
  cbn [UploadAndPostStory.check_media_status]. rewrite print_bind.
  unfold try_except, except_RequestException, raise_for_status, response_json,
    py_get, py_in.
  unfold_M. unfold send, after.
  repeat (break_match; simplify_eq/=); eexists; reflexivity.
Qed.

(** ** Concrete worlds for closed examples *)

(** A 200 reply whose body is the JSON object [res]. *)
Definition reply_ok (res : dict) : reply :=
  Response (mkResponse 200 EmptyString (Some (JObj res))).

(** The world that answers with the replies of [l] in order, then with
    connection errors, and whose file system holds [fs]. *)
Definition world_of (l : list reply) (fs : list (string * file)) : world :=
  mkWorld (λ k, nth k l ConnectionError)
          (λ path, snd <$> find (λ e, String.eqb (fst e) path) fs).

(** The world that gives the same reply forever. *)
Definition world_always (rp : reply) : world := mkWorld (λ _, rp) (λ _, None).

Definition status_is (status : string) : dict := {[ "status_code" := JStr status ]}.

Definition ready1 : fstring := [Lit "✅ Media is ready for publishing."].
Definition failed_line (res : dict) : fstring :=
  [Lit "❌ Media processing failed: "; Val (JObj res)].

(** C4. When a poll response reports FINISHED the poll returns [True], and
    when it reports FAILED the poll returns [False]; in both scripts the
    run consists of that one status request (no sleep, no further request). *)
Theorem C4_finished_and_failed_stop
    (tok : string) (fuel : nat) (cid : json) (mt : string)
    (w : world) (n : nat) (res : dict) (verdict : bool) :
  polled w n res (if verdict then "FINISHED" else "FAILED") →
  PostStory.check_media_status tok (S fuel) cid w n
  = Ran (Return verdict) (S n)
        (step1 ++ [Request (poll_request1 tok cid);
                   Print Stdout (if verdict then ready1 else failed_line res)])
  ∧ UploadAndPostStory.check_media_status tok (S fuel) cid mt w n
  = Ran (Return verdict) (S n)
        (step2 ++ [Request (poll_request2 tok cid);
                   Print Stdout (if verdict then ready1 else failed_line res)]).
Proof.
  intros [H1 H2]. split.
  - cbn [PostStory.check_media_status]. rewrite print_bind.
    unfold try_except. rewrite (fetch_ok _ _ _ _ _ H1).
    cbn [py_get]. rewrite H2. by destruct verdict.
  - cbn [UploadAndPostStory.check_media_status]. rewrite print_bind.
    unfold try_except. rewrite (fetch_ok _ _ _ _ _ H1).
    cbn [py_get]. rewrite H2. by destruct verdict.
Qed.

(** C4 on concrete worlds: a FINISHED poll in the first script, a FAILED poll in the second. *)
Lemma C4_witness :
  PostStory.check_media_status "T" 1 (JStr "17895")
    (world_of [reply_ok (status_is "FINISHED")] []) 0
  = Ran (Return true) 1
        (step1 ++ [Request (poll_request1 "T" (JStr "17895")); Print Stdout ready1])
  ∧ UploadAndPostStory.check_media_status "T" 1 (JStr "17895") "VIDEO"
      (world_of [reply_ok (status_is "FAILED")] []) 0
  = Ran (Return false) 1
        (step2 ++ [Request (poll_request2 "T" (JStr "17895"));
                   Print Stdout (failed_line (status_is "FAILED"))]).
Proof.
  split.
  - apply (C4_finished_and_failed_stop "T" 0 (JStr "17895") "VIDEO"
             (world_of [reply_ok (status_is "FINISHED")] []) 0
             (status_is "FINISHED") true).
    split; reflexivity.
  - apply (C4_finished_and_failed_stop "T" 0 (JStr "17895") "VIDEO"
             (world_of [reply_ok (status_is "FAILED")] []) 0
             (status_is "FAILED") false).
    split; reflexivity.
Defined.

(** C3. When a poll response reports IN_PROGRESS, the poll (in both
    scripts) prints its waiting line, sleeps 5, and then runs the poll
    again against the next reply: the events that follow the first status
    request are the waiting line, [Sleep 5], the console line of the next
    activation and exactly one status request, with no request between
    the two polls. *)
Theorem C3_in_progress_sleeps_then_polls_once
    (tok : string) (fuel : nat) (cid : json) (mt : string)
    (w : world) (n : nat) (res : dict) :
  polled w n res "IN_PROGRESS" →
  let r1 := PostStory.check_media_status tok (S (S fuel)) cid w n in
  let r2 := UploadAndPostStory.check_media_status tok (S (S fuel)) cid mt w n in
  r1 = after (step1 ++ [Request (poll_request1 tok cid)] ++ waiting)
             (PostStory.check_media_status tok (S fuel) cid w (S n))
  ∧ (∃ l, events r1
          = (step1 ++ [Request (poll_request1 tok cid)] ++ waiting
             ++ step1 ++ [Request (poll_request1 tok cid)] ++ l)%list)
  ∧ r2 = after (step2 ++ [Request (poll_request2 tok cid)] ++ waiting)
               (UploadAndPostStory.check_media_status tok (S fuel) cid mt w (S n))
  ∧ (∃ l, events r2
          = (step2 ++ [Request (poll_request2 tok cid)] ++ waiting
             ++ step2 ++ [Request (poll_request2 tok cid)] ++ l)%list).
Proof.
  intros H r1 r2. subst r1 r2.
  rewrite (check1_in_progress _ _ _ _ _ _ H), (check2_in_progress _ _ _ _ _ _ _ H).
  destruct (check1_head tok fuel cid w (S n)) as [l1 Hl1].
  destruct (check2_head tok fuel cid mt w (S n)) as [l2 Hl2].
  repeat split.
  - exists l1. unfold after. cbn [events]. by rewrite Hl1.
  - exists l2. unfold after. cbn [events]. by rewrite Hl2.
Qed.

(** C3 on a concrete world: IN_PROGRESS once, then FINISHED. *)
Lemma C3_witness :
  let w := world_of [reply_ok (status_is "IN_PROGRESS");
                     reply_ok (status_is "FINISHED")] [] in
  PostStory.check_media_status "T" 2 (JStr "17895") w 0
  = Ran (Return true) 2
        (step1 ++ [Request (poll_request1 "T" (JStr "17895"))] ++ waiting
         ++ step1 ++ [Request (poll_request1 "T" (JStr "17895"));
                      Print Stdout ready1]).
Proof.
  intros w.
  destruct (C3_in_progress_sleeps_then_polls_once "T" 0 (JStr "17895") "VIDEO"
              w 0 (status_is "IN_PROGRESS")) as (-> & _).
  - split; reflexivity.
  - reflexivity.
Defined.

(** C8. If every poll response reports IN_PROGRESS the poll never
    returns: for every bound on the number of activations, in both
    scripts, the run makes that many status requests and is still not
    finished. *)
Theorem C8_in_progress_forever
    (tok : string) (cid : json) (mt : string) (w : world) :
  (∀ k, ∃ res, polled w k res "IN_PROGRESS") →
  ∀ fuel n,
    (result (PostStory.check_media_status tok fuel cid w n) = OutOfFuel
     ∧ next (PostStory.check_media_status tok fuel cid w n) = n + fuel)
    ∧ (result (UploadAndPostStory.check_media_status tok fuel cid mt w n) = OutOfFuel
       ∧ next (UploadAndPostStory.check_media_status tok fuel cid mt w n)
         = n + fuel).
Proof.
  intros Hbusy fuel. induction fuel as [|fuel IH]; intros n.
  - cbn. repeat split; lia.
  - destruct (Hbusy n) as [res Hres].
    rewrite (check1_in_progress _ _ _ _ _ _ Hres),
            (check2_in_progress _ _ _ _ _ _ _ Hres).
    unfold after. cbn [result next].
    destruct (IH (S n)) as [[-> ->] [-> ->]]. repeat split; lia.
Qed.

(** C8 on the world that reports IN_PROGRESS forever, with seven activations. *)
Lemma C8_witness :
  result (PostStory.check_media_status "T" 7 (JStr "17895")
            (world_always (reply_ok (status_is "IN_PROGRESS"))) 0) = OutOfFuel
  ∧ result (UploadAndPostStory.check_media_status "T" 7 (JStr "17895") "VIDEO"
              (world_always (reply_ok (status_is "IN_PROGRESS"))) 0) = OutOfFuel.
Proof.
  destruct (C8_in_progress_forever "T" (JStr "17895") "VIDEO"
              (world_always (reply_ok (status_is "IN_PROGRESS")))
              (λ _, ex_intro _ (status_is "IN_PROGRESS") (conj eq_refl eq_refl))
              7 0) as [[H1 _] [H2 _]].
  exact (conj H1 H2).
Defined.

(** ** Unrecognized or missing status *)

(** The value of [result.get('status_code')]. *)
Definition reported (res : dict) : json := default JNull (res !! "status_code").

(** The status is none of FINISHED, IN_PROGRESS, FAILED. *)
Definition unrecognized (status : json) : bool :=
  negb (py_eq_str status "FINISHED" || py_eq_str status "IN_PROGRESS"
        || py_eq_str status "FAILED").

Definition has_key (k : string) (res : dict) : bool :=
  match res !! k with Some _ => true | None => false end.

(** [upload_and_post_story.check_media_status] on one successful poll
    whose status is not IN_PROGRESS stops after that poll. *)
Lemma check2_unrecognized tok fuel cid mt w n res :
  ok_json (replies w n) = Some (JObj res) →
  unrecognized (reported res) = true →
  let r := UploadAndPostStory.check_media_status tok (S fuel) cid mt w n in
  result r = Return (has_key "id" res
                     || (is_none (reported res) && String.eqb mt "IMAGE"))
  ∧ next r = S n.
Proof.
  intros H1 H2. cbn [UploadAndPostStory.check_media_status]. rewrite print_bind.
  unfold try_except. rewrite (fetch_ok _ _ _ _ _ H1).
  cbn [py_get]. fold (reported res).
  unfold unrecognized in H2. apply negb_true_iff in H2.
  apply orb_false_iff in H2 as [H2 Hc]. apply orb_false_iff in H2 as [Ha Hb].
  unfold_M. unfold py_in, has_key.
  destruct (is_none (reported res) && String.eqb mt "IMAGE") eqn:Himg.
  - cbn. by rewrite orb_true_r.
  - rewrite Ha, Hb, Hc. rewrite orb_false_r.
    destruct (res !! "id"); by cbn.
Qed.

Lemma check1_unrecognized tok fuel cid w n res :
  ok_json (replies w n) = Some (JObj res) →
  unrecognized (reported res) = true →
  PostStory.check_media_status tok (S fuel) cid w n
  = Ran (Return false) (S n)
        (step1 ++ [Request (poll_request1 tok cid);
                   Print Stdout [Lit "⚠️ Unknown status: "; Val (JObj res)]]).
Proof.
  intros H1 H2. cbn [PostStory.check_media_status]. rewrite print_bind.
  unfold try_except. rewrite (fetch_ok _ _ _ _ _ H1).
  cbn [py_get]. fold (reported res).
  unfold unrecognized in H2. apply negb_true_iff in H2.
  apply orb_false_iff in H2 as [H2 Hc]. apply orb_false_iff in H2 as [Ha Hb].
  unfold_M. by rewrite Ha, Hb, Hc.
Qed.

(** C5, as stated, fails: for an image whose poll response has neither a
    status nor an ["id"], [upload_and_post_story.check_media_status]
    returns [True], so its success is not equivalent to the presence of
    an ["id"] field. *)
Lemma C5_counterexample :
  unrecognized (reported ∅) = true
  ∧ ¬ (result (UploadAndPostStory.check_media_status "T" 1 (JStr "17895") "IMAGE"
                 (world_of [reply_ok ∅] []) 0) = Return true
       ↔ is_Some ((∅ : dict) !! "id")).
Proof.
  split; [reflexivity|].
  intros [Hid _]. destruct Hid as [v Hv]; [reflexivity|].
  by rewrite lookup_empty in Hv.
Qed.

(** C5, amended.  On a poll response whose status is none of FINISHED,
    IN_PROGRESS, FAILED (or is missing), [post_story.check_media_status]
    returns [False], while [upload_and_post_story.check_media_status]
    returns [True] exactly when the response has an ["id"] field or the
    status is missing and the media kind is IMAGE; neither polls again.
    Hence the two disagree on every such response that has an ["id"]. *)
Theorem C5_unrecognized_status_disagreement
    (tok : string) (fuel : nat) (cid : json) (mt : string)
    (w : world) (n : nat) (res : dict) :
  ok_json (replies w n) = Some (JObj res) →
  unrecognized (reported res) = true →
  let r1 := PostStory.check_media_status tok (S fuel) cid w n in
  let r2 := UploadAndPostStory.check_media_status tok (S fuel) cid mt w n in
  (result r1 = Return false ∧ next r1 = S n)
  ∧ (result r2 = Return (has_key "id" res
                         || (is_none (reported res) && String.eqb mt "IMAGE"))
     ∧ next r2 = S n)
  ∧ (is_Some (res !! "id") → result r1 = Return false ∧ result r2 = Return true).
Proof.
  intros H1 H2 r1 r2.
  pose proof (check1_unrecognized tok fuel cid w n res H1 H2) as E1.
  destruct (check2_unrecognized tok fuel cid mt w n res H1 H2) as [E2 E2'].
  fold r1 in E1. fold r2 in E2, E2'. rewrite E1, E2, E2'. cbn [result next].
  split; [done|]. split; [done|].
  intros [v Hv]. unfold has_key. by rewrite Hv.
Qed.

(** C5 (amended) on a concrete response that has an ["id"] and no status. *)
Lemma C5_witness :
  let w := world_of [reply_ok {[ "id" := JStr "17895" ]}] [] in
  result (PostStory.check_media_status "T" 1 (JStr "17895") w 0) = Return false
  ∧ result (UploadAndPostStory.check_media_status "T" 1 (JStr "17895") "VIDEO" w 0)
    = Return true.
Proof.
  intros w.
  apply (C5_unrecognized_status_disagreement "T" 0 (JStr "17895") "VIDEO" w 0
           {[ "id" := JStr "17895" ]}); [reflexivity | reflexivity |].
  by eexists.
Defined.

(** ** Images in the second script *)

Definition ready_story : fstring :=
  [Lit "✅ Media is ready for publishing (Stories don't require status check)."].




(** ** Container creation *)

Definition upload_request1 (tok acct : string) (d : dict) : request :=
  mkRequest POST (PostStory.MEDIA_UPLOAD_URL acct) (PostStory.access_params tok) ∅
            (FormData d).

Definition upload_request2 (tok acct : string) (d : dict) : request :=
  mkRequest POST (UploadAndPostStory.MEDIA_UPLOAD_URL acct)
            (UploadAndPostStory.access_params tok) ∅ (FormData d).

(** [upload_media] sends exactly one request, the POST that carries the
    [data] dict, whatever the service answers. *)
Lemma upload_media1_requests tok acct media_url mt w n :
  requests_of (events (PostStory.upload_media tok acct media_url mt w n))
  = [upload_request1 tok acct (PostStory.upload_media_data media_url mt)].
Proof.
  unfold PostStory.upload_media. rewrite print_bind.
  unfold upload_request1.
  generalize (PostStory.upload_media_data media_url mt) as d. intros d.
  unfold try_except, except_RequestException, raise_for_status, response_json,
    py_in, py_getitem.
  unfold_M. unfold send, after.
  repeat (break_match; simplify_eq/=); reflexivity.
Qed.

Lemma upload_media2_requests tok acct media_url mt w n :
  requests_of (events (UploadAndPostStory.upload_media tok acct media_url mt w n))
  = [upload_request2 tok acct (UploadAndPostStory.upload_media_data media_url mt)].
Proof.
  unfold UploadAndPostStory.upload_media. rewrite print_bind.
  unfold upload_request2.
  generalize (UploadAndPostStory.upload_media_data media_url mt) as d. intros d.
  unfold try_except, except_RequestException, raise_for_status, response_json,
    py_in, py_getitem.
  unfold_M. unfold send, after.
  repeat (break_match; simplify_eq/=); reflexivity.
Qed.

(** C7, as stated, fails for [upload_and_post_story.py]: there the body
    posted for an image has no [is_share_to_story] entry, and the
    [media_type] sent for a video is the one sent for an image. *)
Lemma C7_counterexample :
  let url := JStr "https://host/media/photo.png" in
  let w := world_of [reply_ok {[ "id" := JStr "17895" ]}] [] in
  requests_of (events (UploadAndPostStory.upload_media "T" "A" url "IMAGE" w 0))
  = [upload_request2 "T" "A" (UploadAndPostStory.upload_media_data url "IMAGE")]
  ∧ UploadAndPostStory.upload_media_data url "IMAGE" !! "is_share_to_story" = None
  ∧ UploadAndPostStory.upload_media_data url "VIDEO" !! "media_type"
    = UploadAndPostStory.upload_media_data url "IMAGE" !! "media_type".
Proof. repeat split; reflexivity. Qed.

(** C7, amended.  The body of the container-creation request depends on
    the media-kind tag.  In [post_story.py] an IMAGE body has
    [media_type] IMAGE and sets [is_share_to_story]; a VIDEO body has the
    different [media_type] REELS, carries the URL as [video_url] too, and
    sets [is_share_to_story].  In [upload_and_post_story.py] both tags
    send [media_type] STORIES, and the URL goes under [image_url] for
    IMAGE and under [video_url] for VIDEO. *)
Theorem C7_container_body_by_tag
    (tok acct : string) (media_url : json) (w : world) (n : nat) :
  (∃ d,
     requests_of (events (PostStory.upload_media tok acct media_url "IMAGE" w n))
     = [upload_request1 tok acct d]
     ∧ d !! "media_type" = Some (JStr "IMAGE")
     ∧ d !! "media_url" = Some media_url
     ∧ d !! "is_share_to_story" = Some (JBool true))
  ∧ (∃ d,
     requests_of (events (PostStory.upload_media tok acct media_url "VIDEO" w n))
     = [upload_request1 tok acct d]
     ∧ d !! "media_type" = Some (JStr "REELS")
     ∧ JStr "REELS" ≠ JStr "IMAGE"
     ∧ d !! "media_url" = Some media_url
     ∧ d !! "video_url" = Some media_url
     ∧ d !! "is_share_to_story" = Some (JBool true))
  ∧ (∃ d,
     requests_of (events (UploadAndPostStory.upload_media tok acct media_url "IMAGE" w n))
     = [upload_request2 tok acct d]
     ∧ d !! "media_type" = Some (JStr "STORIES")
     ∧ d !! "image_url" = Some media_url)
  ∧ (∃ d,
     requests_of (events (UploadAndPostStory.upload_media tok acct media_url "VIDEO" w n))
     = [upload_request2 tok acct d]
     ∧ d !! "media_type" = Some (JStr "STORIES")
     ∧ d !! "video_url" = Some media_url).
Proof.
  repeat apply conj.
  - eexists. split; [apply upload_media1_requests|]. by repeat split.
  - eexists. split; [apply upload_media1_requests|]. by repeat split.
  - eexists. split; [apply upload_media2_requests|]. by repeat split.
  - eexists. split; [apply upload_media2_requests|]. by repeat split.
Qed.

(** ** Credential exchange *)

Definition token_request (short_lived_token app_id app_secret : string) : request :=
  mkRequest GET [Lit "https://graph.facebook.com/v19.0/oauth/access_token"]
            {[ "grant_type" := "fb_exchange_token";
               "client_id" := app_id;
               "client_secret" := app_secret;
               "fb_exchange_token" := short_lived_token ]}
            ∅ NoBody.





(** One request per call, whatever the reply: there is no retry. *)
Lemma exchange_token_one_request slt app_id app_secret w n :
  let r := ExchangeToken.exchange_token slt app_id app_secret w n in
  next r = S n ∧ requests_of (events r) = [token_request slt app_id app_secret].
Proof.
  unfold ExchangeToken.exchange_token, token_request.
  unfold try_except, except_RequestException, raise_for_status, response_json,
    py_in, py_getitem, py_truediv.
  unfold_M. unfold send.
  repeat (break_match; simplify_eq/=); by split.
Qed.



(** ** Command-line validation *)

Lemma bind_events {A B} (m : M A) (k : A → M B) w n :
  ∃ l, events ((m ≫= k) w n) = (events (m w n) ++ l)%list.
Proof.
  unfold mbind, M_bind, bind. destruct (m w n) as [[a|e|c|] n1 l1]; cbn [events].
  - destruct (k a w n1) as [o n2 l2]. by exists l2.
  - exists []. by rewrite app_nil_r.
  - exists []. by rewrite app_nil_r.
  - exists []. by rewrite app_nil_r.
Qed.

Lemma requests_of_app (l1 l2 : list event) :
  requests_of (l1 ++ l2) = (requests_of l1 ++ requests_of l2)%list.
Proof.
  induction l1 as [|[rq|s|to line] l1 IH]; cbn; [done| |done|done].
  by rewrite IH.
Qed.

Definition invalid_media_type : event :=
  Print Stdout [Lit "❌ Invalid media type. Use 'VIDEO' or 'IMAGE'"].

Definition posting_line (media_type : string) : event :=
  Print Stdout [Lit "📱 Posting "; Val (JStr media_type); Lit " to Instagram Story..."].

Definition uploading_line (media_type : string) : event :=
  Print Stdout [Lit "📱 Uploading and posting "; Val (JStr media_type);
                Lit " to Instagram Story..."].

(** [str.upper] restricted to the ASCII letters, for closed examples. *)
Definition upper_ascii_char (c : ascii) : ascii :=
  let k := nat_of_ascii c in
  if Nat.leb 97 k && Nat.leb k 122 then ascii_of_nat (k - 32) else c.

Fixpoint upper_ascii (s : string) : string :=
  match s with
  | EmptyString => EmptyString
  | String c rest => String (upper_ascii_char c) (upper_ascii rest)
  end.

Example upper_ascii_mixed : upper_ascii "Image" = "IMAGE".
Proof. reflexivity. Qed.

Example upper_ascii_keeps_digits : upper_ascii "mp4 Video" = "MP4 VIDEO".
Proof. reflexivity. Qed.

Lemma post_head tok acct fuel media_url mt w n :
  (∃ l, events (PostStory.post tok acct fuel media_url mt w n) = posting_line mt :: l)
  ∧ (∃ l, requests_of (events (PostStory.post tok acct fuel media_url mt w n))
          = upload_request1 tok acct (PostStory.upload_media_data (JStr media_url) mt) :: l).
Proof.
  unfold PostStory.post. rewrite !print_bind. unfold after. cbn [events app].
  split; [by eexists|].
  cbn [requests_of].
  match goal with
  | |- context [events (mbind ?k ?m w n)] =>
      destruct (bind_events m k w n) as [l Hl]
  end.
  rewrite Hl, requests_of_app, upload_media1_requests.
  by eexists.
Qed.

Lemma upload_and_post_head tok acct ghtok repo branch b64 fuel path mt w n :
  files w path ≠ None →
  ∃ l, events (UploadAndPostStory.upload_and_post tok acct ghtok repo branch b64
                 fuel path mt w n) = uploading_line mt :: l.
Proof.
  intros Hf. unfold UploadAndPostStory.upload_and_post.
  unfold mbind at 1. unfold M_bind at 1. unfold bind at 1. unfold os_path_exists.
  destruct (files w path) as [f|]; [|done]. cbn [negb].
  rewrite print_bind. unfold after. cbn [events app]. by eexists.
Qed.

(** C10. Both entry scripts uppercase the media-kind argument before they
    validate it.  When the uppercased argument is VIDEO or IMAGE, [main]
    goes on with the uppercased tag (it is the tag announced on the
    console and the one the container request is built from); for every
    other argument [main] prints the accepted values and exits with
    code 1 without any request. *)
Theorem C10_media_kind_case_insensitive
    (upper : string → string) (tok acct ghtok repo branch : string)
    (b64 : list Byte.byte → string) (fuel : nat) (prog arg1 arg2 : string)
    (w : world) (n : nat) :
  let mt := upper arg2 in
  let main1 := PostStory.main tok acct upper fuel [prog; arg1; arg2] w n in
  let main2 := UploadAndPostStory.main tok acct ghtok repo branch b64 upper fuel
                 [prog; arg1; arg2] w n in
  (mt = "VIDEO" ∨ mt = "IMAGE" →
     main1 = PostStory.post tok acct fuel arg1 mt w n
     ∧ (∃ l, events main1 = posting_line mt :: l)
     ∧ (∃ l, requests_of (events main1)
             = upload_request1 tok acct (PostStory.upload_media_data (JStr arg1) mt) :: l)
     ∧ main2 = UploadAndPostStory.upload_and_post tok acct ghtok repo branch b64
                 fuel arg1 mt w n
     ∧ (files w arg1 ≠ None → ∃ l, events main2 = uploading_line mt :: l))
  ∧ (mt ≠ "VIDEO" → mt ≠ "IMAGE" →
     main1 = Ran (SysExit 1%Z) n [invalid_media_type]
     ∧ main2 = Ran (SysExit 1%Z) n [invalid_media_type]).
Proof.
  intros mt main1 main2. subst main1 main2.
  unfold PostStory.main, UploadAndPostStory.main. fold mt. split.
  - intros Hmt.
    assert (String.eqb mt "VIDEO" || String.eqb mt "IMAGE" = true) as ->.
    { destruct Hmt as [-> | ->]; reflexivity. }
    cbn [negb]. destruct (post_head tok acct fuel arg1 mt w n) as [H1 H2].
    repeat split; try done.
    apply upload_and_post_head.
  - intros Hv Hi.
    apply String.eqb_neq in Hv, Hi. rewrite Hv, Hi. by cbn.
Qed.

(** C10 with the ASCII [upper]: 'video' and 'Image' are accepted, 'gif' is rejected. *)
Lemma C10_witness :
  let w := world_of [] [] in
  PostStory.main "T" "A" upper_ascii 1 ["post_story.py"; "https://host/v.mp4"; "video"] w 0
  = PostStory.post "T" "A" 1 "https://host/v.mp4" "VIDEO" w 0
  ∧ UploadAndPostStory.main "T" "A" "G" "o/r" "main" (λ _, "AA==") upper_ascii 1
      ["upload_and_post_story.py"; "photo.png"; "Image"] w 0
    = UploadAndPostStory.upload_and_post "T" "A" "G" "o/r" "main" (λ _, "AA==") 1
        "photo.png" "IMAGE" w 0
  ∧ PostStory.main "T" "A" upper_ascii 1 ["post_story.py"; "https://host/v.mp4"; "gif"] w 0
    = Ran (SysExit 1%Z) 0 [invalid_media_type].
Proof.
  intros w. repeat apply conj.
  - destruct (C10_media_kind_case_insensitive upper_ascii "T" "A" "G" "o/r" "main"
                (λ _, "AA==") 1 "post_story.py" "https://host/v.mp4" "video" w 0)
      as [Hok _].
    exact (proj1 (Hok (or_introl eq_refl))).
  - destruct (C10_media_kind_case_insensitive upper_ascii "T" "A" "G" "o/r" "main"
                (λ _, "AA==") 1 "upload_and_post_story.py" "photo.png" "Image" w 0)
      as [Hok _].
    exact (proj1 (proj2 (proj2 (proj2 (Hok (or_intror eq_refl)))))).
  - destruct (C10_media_kind_case_insensitive upper_ascii "T" "A" "G" "o/r" "main"
                (λ _, "AA==") 1 "post_story.py" "https://host/v.mp4" "gif" w 0)
      as [_ Hbad].
    refine (proj1 (Hbad _ _)); discriminate.
Defined.

(** ** Content-hosting upload *)

Example basename_of_relative_path : basename "./shots/photo.png" = "photo.png".
Proof. reflexivity. Qed.

Example basename_of_directory_path : basename "shots/" = EmptyString.
Proof. reflexivity. Qed.

Definition probe_request (tok repo path : string) : request :=
  mkRequest GET (GithubUploader.api_url repo ("media/" +:+ basename path)) ∅
            (GithubUploader.api_headers tok) NoBody.

Definition put_request (tok repo path : string) (d : dict) : request :=
  mkRequest PUT (GithubUploader.api_url repo ("media/" +:+ basename path)) ∅
            (GithubUploader.api_headers tok) (JsonData d).

Definition uploading_note (path : string) (size : Z) : event :=
  Print Stderr [Lit "-> Uploading '"; Val (JStr (basename path)); Lit "' (";
                Fixed 1 (inject_Z size / 1024 / 1024)%Q; Lit "MB) to GitHub..."].

Definition not_found_note (path : string) : event :=
  Print Stderr [Lit "Error: File not found at '"; Val (JStr path); Lit "'"].

Definition too_large_note (size : Z) : event :=
  Print Stderr [Lit "Error: File size ("; Fixed 1 (inject_Z size / 1024 / 1024)%Q;
                Lit "MB) exceeds GitHub's 100MB limit"].

Ltac unfold_upload :=
  unfold GithubUploader.upload_to_github;
  unfold os_path_exists, os_path_isfile, os_path_getsize, read_file, try_except,
    except_RequestException_or_Exception, response_json, py_getitem;
  unfold_M; unfold send.

Ltac reduce_with tac :=
  repeat (progress (tac; cbv beta iota zeta delta [negb])).

(** A regular file within the size limit gets as far as the probe. *)
Lemma upload_reaches_probe tok repo branch b64 path w n f :
  files w path = Some f → isfile f = true →
  (getsize f >? 100 * 1024 * 1024)%Z = false →
  ∃ l, events (GithubUploader.upload_to_github tok repo branch b64 path w n)
       = uploading_note path (getsize f) :: Request (probe_request tok repo path) :: l.
Proof.
  intros Hf Hreg Hle. unfold_upload.
  reduce_with ltac:(rewrite ?Hf, ?Hreg, ?Hle).
  unfold uploading_note, probe_request.
  repeat (break_match; simplify_eq/=); by eexists.
Qed.

(** After a probe that found the object, the PUT carries its [sha]; after
    any other probe status the PUT carries none.  Either way the run
    makes exactly these two requests. *)
Lemma upload_put_with_sha tok repo branch b64 path w n f probe existing sha :
  files w path = Some f → isfile f = true →
  (getsize f >? 100 * 1024 * 1024)%Z = false →
  replies w n = Response probe →
  status_code probe = 200%Z → body probe = Some (JObj existing) →
  existing !! "sha" = Some sha →
  ∃ d, requests_of (events (GithubUploader.upload_to_github tok repo branch b64 path w n))
       = [probe_request tok repo path; put_request tok repo path d]
       ∧ d !! "sha" = Some sha.
Proof.
  intros Hf Hreg Hle Hp Hs Hb Hsha. unfold_upload.
  reduce_with ltac:(rewrite ?Hf, ?Hreg, ?Hle, ?Hp, ?Hs, ?Hb, ?Hsha, ?Z.eqb_refl).
  match goal with |- context [JsonData ?d] => remember d as D eqn:HD end.
  exists D. split.
  - unfold probe_request, put_request.
    repeat (break_match; simplify_eq/=); reflexivity.
  - subst D. rewrite lookup_insert_ne by done. apply lookup_insert_eq.
Qed.

Lemma upload_put_without_sha tok repo branch b64 path w n f probe :
  files w path = Some f → isfile f = true →
  (getsize f >? 100 * 1024 * 1024)%Z = false →
  replies w n = Response probe →
  status_code probe ≠ 200%Z →
  ∃ d, requests_of (events (GithubUploader.upload_to_github tok repo branch b64 path w n))
       = [probe_request tok repo path; put_request tok repo path d]
       ∧ d !! "sha" = None.
Proof.
  intros Hf Hreg Hle Hp Hs. apply Z.eqb_neq in Hs. unfold_upload.
  reduce_with ltac:(rewrite ?Hf, ?Hreg, ?Hle, ?Hp, ?Hs).
  match goal with |- context [JsonData ?d] => remember d as D eqn:HD end.
  exists D. split.
  - unfold probe_request, put_request.
    repeat (break_match; simplify_eq/=); reflexivity.
  - subst D. rewrite !lookup_insert_ne by done. by apply lookup_singleton_ne.
Qed.

(** C1. In [upload_to_github], for a file that passes the local checks:
    when the probe GET answers 200 (with the object's JSON, which holds
    its [sha]), the PUT body that follows includes that [sha]; when the
    probe answers any other status, the PUT body has no [sha].  In both
    cases the probe and the PUT are the only requests. *)
Theorem C1_put_carries_sha_iff_probe_200
    (tok repo branch : string) (b64 : list Byte.byte → string)
    (path : string) (w : world) (n : nat) (f : file) (probe : response) :
  files w path = Some f → isfile f = true →
  (getsize f ≤ 100 * 1024 * 1024)%Z →
  replies w n = Response probe →
  let r := GithubUploader.upload_to_github tok repo branch b64 path w n in
  (∀ existing sha,
     status_code probe = 200%Z → body probe = Some (JObj existing) →
     existing !! "sha" = Some sha →
     ∃ d, requests_of (events r)
          = [probe_request tok repo path; put_request tok repo path d]
          ∧ d !! "sha" = Some sha)
  ∧ (status_code probe ≠ 200%Z →
     ∃ d, requests_of (events r)
          = [probe_request tok repo path; put_request tok repo path d]
          ∧ d !! "sha" = None).
Proof.
  intros Hf Hreg Hsz Hp r.
  assert ((getsize f >? 100 * 1024 * 1024)%Z = false) as Hle by lia.
  split.
  - intros existing sha Hs Hb Hsha. by eapply upload_put_with_sha.
  - intros Hs. by eapply upload_put_without_sha.
Qed.

Definition small_file : file := mkFile true 10240 [].

(** C1 on a concrete world: an existing object with a [sha], then a 404 probe. *)
Lemma C1_witness :
  let existing : dict := {[ "sha" := JStr "95b966ae" ]} in
  let w1 := world_of [reply_ok existing] [("photo.png", small_file)] in
  let w2 := world_of [Response (mkResponse 404 "Not Found" None)]
                     [("photo.png", small_file)] in
  (∃ d, requests_of (events (GithubUploader.upload_to_github "G" "o/r" "main"
                               (λ _, "AA==") "photo.png" w1 0))
        = [probe_request "G" "o/r" "photo.png"; put_request "G" "o/r" "photo.png" d]
        ∧ d !! "sha" = Some (JStr "95b966ae"))
  ∧ (∃ d, requests_of (events (GithubUploader.upload_to_github "G" "o/r" "main"
                                 (λ _, "AA==") "photo.png" w2 0))
          = [probe_request "G" "o/r" "photo.png"; put_request "G" "o/r" "photo.png" d]
          ∧ d !! "sha" = None).
Proof.
  intros existing w1 w2. split.
  - destruct (C1_put_carries_sha_iff_probe_200 "G" "o/r" "main" (λ _, "AA==")
                "photo.png" w1 0 small_file
                (mkResponse 200 EmptyString (Some (JObj existing))))
      as [Hsha _]; [reflexivity | reflexivity | cbn; lia | reflexivity |].
    exact (Hsha existing (JStr "95b966ae") eq_refl eq_refl eq_refl).
  - destruct (C1_put_carries_sha_iff_probe_200 "G" "o/r" "main" (λ _, "AA==")
                "photo.png" w2 0 small_file (mkResponse 404 "Not Found" None))
      as [_ Hnone]; [reflexivity | reflexivity | cbn; lia | reflexivity |].
    apply Hnone. discriminate.
Defined.

(** C2. [upload_to_github] exits with code 1 before any request when the
    path does not exist and when the regular file at the path is larger
    than 100 MiB; a regular file of exactly 100 MiB passes the size check
    and the run goes on to the probe request. *)
Theorem C2_local_checks_precede_network
    (tok repo branch : string) (b64 : list Byte.byte → string)
    (path : string) (w : world) (n : nat) :
  let r := GithubUploader.upload_to_github tok repo branch b64 path w n in
  (files w path = None → r = Ran (SysExit 1%Z) n [not_found_note path])
  ∧ (∀ f, files w path = Some f → isfile f = true →
          (getsize f > 100 * 1024 * 1024)%Z →
          r = Ran (SysExit 1%Z) n [too_large_note (getsize f)])
  ∧ (∀ f, files w path = Some f → isfile f = true →
          getsize f = (100 * 1024 * 1024)%Z →
          ∃ l, events r = uploading_note path (getsize f)
                          :: Request (probe_request tok repo path) :: l).
Proof.
  intros r. subst r. repeat apply conj.
  - intros Hf. unfold_upload. by reduce_with ltac:(rewrite ?Hf).
  - intros f Hf Hreg Hsz.
    assert ((getsize f >? 100 * 1024 * 1024)%Z = true) as Hgt by lia.
    unfold_upload. by reduce_with ltac:(rewrite ?Hf, ?Hreg, ?Hgt).
  - intros f Hf Hreg Hsz. apply upload_reaches_probe; [done | done | lia].
Qed.

Definition huge_file : file := mkFile true (100 * 1024 * 1024 + 1) [].
Definition limit_file : file := mkFile true (100 * 1024 * 1024) [].

(** C2 on a concrete file system: a missing path, a file one byte over the limit, and a file at the limit. *)
Lemma C2_witness :
  let w := world_of [] [("huge.mp4", huge_file); ("limit.mp4", limit_file)] in
  GithubUploader.upload_to_github "G" "o/r" "main" (λ _, "AA==") "missing.mp4" w 0
  = Ran (SysExit 1%Z) 0 [not_found_note "missing.mp4"]
  ∧ GithubUploader.upload_to_github "G" "o/r" "main" (λ _, "AA==") "huge.mp4" w 0
    = Ran (SysExit 1%Z) 0 [too_large_note (100 * 1024 * 1024 + 1)]
  ∧ ∃ l, events (GithubUploader.upload_to_github "G" "o/r" "main" (λ _, "AA==")
                   "limit.mp4" w 0)
         = uploading_note "limit.mp4" (100 * 1024 * 1024)
           :: Request (probe_request "G" "o/r" "limit.mp4") :: l.
Proof.
  intros w. repeat apply conj.
  - destruct (C2_local_checks_precede_network "G" "o/r" "main" (λ _, "AA==")
                "missing.mp4" w 0) as (Hmissing & _).
    exact (Hmissing eq_refl).
  - destruct (C2_local_checks_precede_network "G" "o/r" "main" (λ _, "AA==")
                "huge.mp4" w 0) as (_ & Hhuge & _).
    apply (Hhuge huge_file); [reflexivity | reflexivity | cbn; lia].
  - destruct (C2_local_checks_precede_network "G" "o/r" "main" (λ _, "AA==")
                "limit.mp4" w 0) as (_ & _ & Hlimit).
    apply (Hlimit limit_file); reflexivity.
Defined.

(** ** The end-to-end scenario of the specification

    A 10 KB [photo.png] posted as IMAGE: the probe finds nothing, the PUT
    creates the object, the container is created, the image poll reports
    no status, and the promotion returns the post id.  [main] returns
    normally (exit code 0) after five requests and prints the post id. *)

Definition scenario : world :=
  world_of
    [Response (mkResponse 404 "Not Found" (Some (JObj {[ "message" := JStr "Not Found" ]})));
     Response (mkResponse 201 EmptyString
                 (Some (JObj {[ "content" :=
                                  JObj {[ "download_url" := JStr "https://host/media/photo.png" ]} ]})));
     reply_ok {[ "id" := JStr "17895" ]};
     reply_ok {[ "id" := JStr "17895" ]};
     reply_ok {[ "id" := JStr "17999" ]}]
    [("photo.png", small_file)].

Definition scenario_run : ran unit :=
  UploadAndPostStory.main "T" "A" "G" "o/r" "main" (λ _, "AA==") upper_ascii 1
    ["upload_and_post_story.py"; "photo.png"; "image"] scenario 0.

Example end_to_end_image_story :
  result scenario_run = Return tt
  ∧ next scenario_run = 5
  ∧ requests_of (events scenario_run)
    = [probe_request "G" "o/r" "photo.png";
       put_request "G" "o/r" "photo.png"
         {[ "message" := JStr "Upload photo.png via Album 3 Instagram automation";
            "content" := JStr "AA==";
            "branch" := JStr "main" ]};
       upload_request2 "T" "A"
         {[ "media_type" := JStr "STORIES";
            "image_url" := JStr "https://host/media/photo.png" ]};
       poll_request2 "T" (JStr "17895");
       mkRequest POST (UploadAndPostStory.MEDIA_PUBLISH_URL "A")
         (UploadAndPostStory.access_params "T") ∅
         (FormData {[ "creation_id" := JStr "17895" ]})]
  ∧ In (Print Stdout [Lit "📱 Story ID: "; Val (JStr "17999")]) (events scenario_run).
Proof.
  repeat apply conj; try (vm_compute; reflexivity).
  vm_compute. repeat (first [left; reflexivity | right]).
Qed.

(** * Further properties of the code *)

(** ** How runs compose *)

(** The run of [m ≫= k]: the events of [m], then, when [m] returns, the
    run of [k] from where [m] stopped. *)
Lemma bind_run {A B} (m : M A) (k : A → M B) w n :
  (m ≫= k) w n
  = match result (m w n) with
    | Return a => after (events (m w n)) (k a w (next (m w n)))
    | Raise e => Ran (Raise e) (next (m w n)) (events (m w n))
    | SysExit c => Ran (SysExit c) (next (m w n)) (events (m w n))
    | OutOfFuel => Ran OutOfFuel (next (m w n)) (events (m w n))
    end.
Proof.
  unfold mbind, M_bind, bind, after.
  destruct (m w n) as [[a|e|c|] n1 l1]; cbn [result next events]; try done.
  by destruct (k a w n1).
Qed.

(** The exception, if any, that [raise_for_status(); json()] raises on a
    reply: a transport failure or a body that is not JSON has no
    [e.response], an HTTP error status carries the response. *)
Definition fetch_error (rp : reply) : option response :=
  match rp with
  | ConnectionError => None
  | Response r => if is_http_error (status_code r) then Some r else None
  end.

Lemma fetch_fail {A} (rq : request) (k : json → M A) w n :
  ok_json (replies w n) = None →
  (response ← send rq;
   raise_for_status response;;
   result ← response_json response;
   k result) w n
  = Ran (Raise (RequestException (fetch_error (replies w n)))) (S n) [Request rq].
Proof.
  intros H. unfold mbind, M_bind, bind, send, fetch_error.
  destruct (replies w n) as [|r]; [done|]. simpl in H.
  unfold raise_for_status, response_json.
  destruct (is_http_error (status_code r)); [done|].
  by rewrite H.
Qed.

(** The sleeps among a run's events, in order. *)
Fixpoint sleeps_of (l : list event) : list Z :=
  match l with
  | [] => []
  | Sleep s :: l' => s :: sleeps_of l'
  | _ :: l' => sleeps_of l'
  end.

Lemma sleeps_of_app (l1 l2 : list event) :
  sleeps_of (l1 ++ l2) = (sleeps_of l1 ++ sleeps_of l2)%list.
Proof.
  induction l1 as [|[rq|s|to line] l1 IH]; cbn; [done|done| |done].
  by rewrite IH.
Qed.

(** ** The status poll on every kind of reply *)

(** The reply makes the poll go round again. *)
Definition wants_retry (rp : reply) : bool :=
  match ok_json rp with
  | Some (JObj res) => py_eq_str (reported res) "IN_PROGRESS"
  | _ => false
  end.

Lemma wants_retry_polled w n :
  wants_retry (replies w n) = true → ∃ res, polled w n res "IN_PROGRESS".
Proof.
  unfold wants_retry, polled, reported.
  destruct (ok_json (replies w n)) as [[| | | | |res]|]; try done.
  intros H. exists res. split; [done|].
  destruct (res !! "status_code") as [[| | |s| |]|]; try done.
  cbn in H. apply String.eqb_eq in H. by subst.
Qed.

Lemma polled_wants_retry w n res :
  polled w n res "IN_PROGRESS" → wants_retry (replies w n) = true.
Proof.
  intros [H1 H2]. unfold wants_retry, reported. by rewrite H1, H2.
Qed.

(** What one activation prints after the status request when it does not
    go round again, and how it ends; for [post_story.py]. *)
Definition verdict1 (rp : reply) : outcome bool * list event :=
  match ok_json rp with
  | None =>
      (Return false,
       [Print Stdout [Lit "❌ Error checking media status: ";
                      Exn (RequestException (fetch_error rp))]])
  | Some (JObj res) =>
      if py_eq_str (reported res) "FINISHED" then
        (Return true, [Print Stdout ready1])
      else if py_eq_str (reported res) "FAILED" then
        (Return false, [Print Stdout (failed_line res)])
      else
        (Return false, [Print Stdout [Lit "⚠️ Unknown status: "; Val (JObj res)]])
  | Some _ => (Raise AttributeError, [])
  end.

(** The same for [upload_and_post_story.py]. *)
Definition verdict2 (mt : string) (rp : reply) : outcome bool * list event :=
  match ok_json rp with
  | None =>
      (Return false,
       [Print Stdout [Lit "❌ Error checking media status: ";
                      Exn (RequestException (fetch_error rp))]])
  | Some (JObj res) =>
      if is_none (reported res) && String.eqb mt "IMAGE" then
        (Return true, [Print Stdout ready_story])
      else if py_eq_str (reported res) "FINISHED" then
        (Return true, [Print Stdout ready1])
      else if py_eq_str (reported res) "FAILED" then
        (Return false, [Print Stdout (failed_line res)])
      else
        (Return (has_key "id" res),
         Print Stdout [Lit "⚠️ Unknown status: "; Val (JObj res)]
         :: (if has_key "id" res
             then [Print Stdout [Lit "✅ Proceeding with publication..."]]
             else []))
  | Some _ => (Raise AttributeError, [])
  end.

(** A reply that does not ask for another round ends the poll at once,
    whatever the fuel left. *)
Lemma check1_stop tok fuel cid w n :
  wants_retry (replies w n) = false →
  PostStory.check_media_status tok (S fuel) cid w n
  = Ran (fst (verdict1 (replies w n))) (S n)
        (step1 ++ [Request (poll_request1 tok cid)] ++ snd (verdict1 (replies w n))).
Proof.
  intros H. cbn [PostStory.check_media_status]. rewrite print_bind.
  unfold try_except, wants_retry, verdict1 in *.
  destruct (ok_json (replies w n)) as [v|] eqn:E.
  - rewrite (fetch_ok _ _ _ _ _ E).
    destruct v as [| | | | |res]; try done.
    cbn [py_get]. fold (reported res). unfold_M. rewrite H.
    destruct (py_eq_str (reported res) "FINISHED"); [done|].
    by destruct (py_eq_str (reported res) "FAILED").
  - by rewrite (fetch_fail _ _ _ _ E).
Qed.

Lemma check2_stop tok fuel cid mt w n :
  wants_retry (replies w n) = false →
  UploadAndPostStory.check_media_status tok (S fuel) cid mt w n
  = Ran (fst (verdict2 mt (replies w n))) (S n)
        (step2 ++ [Request (poll_request2 tok cid)] ++ snd (verdict2 mt (replies w n))).
Proof.
  intros H. cbn [UploadAndPostStory.check_media_status]. rewrite print_bind.
  unfold try_except, wants_retry, verdict2 in *.
  destruct (ok_json (replies w n)) as [v|] eqn:E.
  - rewrite (fetch_ok _ _ _ _ _ E).
    destruct v as [| | | | |res]; try done.
    cbn [py_get]. fold (reported res). unfold_M. unfold py_in, has_key. rewrite H.
    destruct (is_none (reported res) && String.eqb mt "IMAGE"); [done|].
    destruct (py_eq_str (reported res) "FINISHED"); [done|].
    destruct (py_eq_str (reported res) "FAILED"); [done|].
    by destruct (res !! "id").
  - by rewrite (fetch_fail _ _ _ _ E).
Qed.

(** One full round of the poll: its console line, the status request,
    the waiting line and the sleep. *)
Definition round1 (tok : string) (cid : json) : list event :=
  (step1 ++ [Request (poll_request1 tok cid)] ++ waiting)%list.
Definition round2 (tok : string) (cid : json) : list event :=
  (step2 ++ [Request (poll_request2 tok cid)] ++ waiting)%list.

(** Every run of the poll is built from three cases: no fuel, a reply
    that ends it, or a round followed by a run on the next reply. *)
Lemma check1_cases (P : nat → ran bool → Prop) tok cid w :
  (∀ n, P n (Ran OutOfFuel n [])) →
  (∀ n, wants_retry (replies w n) = false →
        P n (Ran (fst (verdict1 (replies w n))) (S n)
                 (step1 ++ [Request (poll_request1 tok cid)]
                  ++ snd (verdict1 (replies w n))))) →
  (∀ n r, wants_retry (replies w n) = true → P (S n) r →
          P n (after (round1 tok cid) r)) →
  ∀ fuel n, P n (PostStory.check_media_status tok fuel cid w n).
Proof.
  intros H0 Hstop Hround fuel. induction fuel as [|fuel IH]; intros n.
  - apply H0.
  - destruct (wants_retry (replies w n)) eqn:E.
    + destruct (wants_retry_polled w n E) as [res Hres].
      rewrite (check1_in_progress _ _ _ _ _ _ Hres). by apply Hround.
    + rewrite (check1_stop _ _ _ _ _ E). by apply Hstop.
Qed.

Lemma check2_cases (P : nat → ran bool → Prop) tok cid mt w :
  (∀ n, P n (Ran OutOfFuel n [])) →
  (∀ n, wants_retry (replies w n) = false →
        P n (Ran (fst (verdict2 mt (replies w n))) (S n)
                 (step2 ++ [Request (poll_request2 tok cid)]
                  ++ snd (verdict2 mt (replies w n))))) →
  (∀ n r, wants_retry (replies w n) = true → P (S n) r →
          P n (after (round2 tok cid) r)) →
  ∀ fuel n, P n (UploadAndPostStory.check_media_status tok fuel cid mt w n).
Proof.
  intros H0 Hstop Hround fuel. induction fuel as [|fuel IH]; intros n.
  - apply H0.
  - destruct (wants_retry (replies w n)) eqn:E.
    + destruct (wants_retry_polled w n E) as [res Hres].
      rewrite (check2_in_progress _ _ _ _ _ _ _ Hres). by apply Hround.
    + rewrite (check2_stop _ _ _ _ _ _ E). by apply Hstop.
Qed.

Lemma verdict1_quiet rp :
  requests_of (snd (verdict1 rp)) = [] ∧ sleeps_of (snd (verdict1 rp)) = [].
Proof. unfold verdict1. by repeat case_match. Qed.

Lemma verdict2_quiet mt rp :
  requests_of (snd (verdict2 mt rp)) = [] ∧ sleeps_of (snd (verdict2 mt rp)) = [].
Proof. unfold verdict2. by repeat case_match. Qed.

Lemma verdict1_outcome rp :
  (∃ b, fst (verdict1 rp) = Return b) ∨ fst (verdict1 rp) = Raise AttributeError.
Proof. unfold verdict1. repeat case_match; cbn; eauto. Qed.

Lemma verdict2_outcome mt rp :
  (∃ b, fst (verdict2 mt rp) = Return b) ∨ fst (verdict2 mt rp) = Raise AttributeError.
Proof. unfold verdict2. repeat case_match; cbn; eauto. Qed.

(** The poll ended by itself: it returned or an exception escaped. *)
Definition settled {A} (r : ran A) : bool :=
  match result r with OutOfFuel => false | _ => true end.

(** What the counting invariant says of one run that started at reply [n]
    and sent the request [rq] each time. *)
Definition poll_counts (rq : request) (n : nat) (r : ran bool) : Prop :=
  (n ≤ next r)%nat
  ∧ requests_of (events r) = replicate (next r - n) rq
  ∧ sleeps_of (events r)
    = replicate (if settled r then next r - n - 1 else next r - n) 5%Z
  ∧ (settled r = true → (n < next r)%nat).

Lemma poll_counts_round rq n r (l1 : list event) :
  requests_of l1 = [] → sleeps_of l1 = [] →
  poll_counts rq (S n) r →
  poll_counts rq n (after (l1 ++ [Request rq] ++ waiting) r).
Proof.
  intros Hq Hs (Hle & Hreq & Hsl & Hlt).
  unfold poll_counts, after, settled, waiting in *. cbn [result next events].
  rewrite !requests_of_app, !sleeps_of_app, Hq, Hs, Hreq, Hsl.
  cbn [requests_of sleeps_of app].
  replace (next r - n) with (S (next r - S n)) by lia.
  split; [lia|]. split; [done|]. split.
  - destruct (result r); cbn [replicate]; try done;
      specialize (Hlt eq_refl);
      by replace (S (next r - S n) - 1) with (S (next r - S n - 1)) by lia.
  - intros H. lia.
Qed.

Lemma poll_counts_stop rq n o (l1 l2 : list event) :
  requests_of l1 = [] → sleeps_of l1 = [] →
  requests_of l2 = [] → sleeps_of l2 = [] →
  o ≠ OutOfFuel →
  poll_counts rq n (Ran o (S n) (l1 ++ [Request rq] ++ l2)).
Proof.
  intros Hq1 Hs1 Hq2 Hs2 Ho. unfold poll_counts, settled. cbn [result next events].
  rewrite !requests_of_app, !sleeps_of_app, Hq1, Hs1, Hq2, Hs2. cbn.
  replace (S n - n) with 1 by lia.
  repeat split; try lia; try done. by destruct o.
Qed.

Lemma check1_counts tok cid w fuel n :
  poll_counts (poll_request1 tok cid) n
    (PostStory.check_media_status tok fuel cid w n).
Proof.
  revert fuel n. apply check1_cases.
  - intros n. unfold poll_counts, settled. cbn. replace (n - n) with 0 by lia.
    repeat split; [lia|done].
  - intros n _. destruct (verdict1_quiet (replies w n)) as [Hq Hs].
    apply poll_counts_stop; try done.
    destruct (verdict1_outcome (replies w n)) as [[b ->] | ->]; done.
  - intros n r _ Hr. by apply (poll_counts_round _ _ _ step1).
Qed.

Lemma check2_counts tok cid mt w fuel n :
  poll_counts (poll_request2 tok cid) n
    (UploadAndPostStory.check_media_status tok fuel cid mt w n).
Proof.
  revert fuel n. apply check2_cases.
  - intros n. unfold poll_counts, settled. cbn. replace (n - n) with 0 by lia.
    repeat split; [lia|done].
  - intros n _. destruct (verdict2_quiet mt (replies w n)) as [Hq Hs].
    apply poll_counts_stop; try done.
    destruct (verdict2_outcome mt (replies w n)) as [[b ->] | ->]; done.
  - intros n r _ Hr. by apply (poll_counts_round _ _ _ step2).
Qed.

(** How a poll can end. *)
Definition poll_outcome (o : outcome bool) : Prop :=
  (∃ b, o = Return b) ∨ o = Raise AttributeError ∨ o = OutOfFuel.

Lemma check1_outcome tok cid w fuel n :
  poll_outcome (result (PostStory.check_media_status tok fuel cid w n)).
Proof.
  revert fuel n. apply check1_cases with (P := λ _ r, poll_outcome (result r)).
  - intros n. right. by right.
  - intros n _. cbn [result].
    destruct (verdict1_outcome (replies w n)) as [H|H]; [by left|right; by left].
  - by intros n r _ Hr.
Qed.

Lemma check2_outcome tok cid mt w fuel n :
  poll_outcome (result (UploadAndPostStory.check_media_status tok fuel cid mt w n)).
Proof.
  revert fuel n. apply check2_cases with (P := λ _ r, poll_outcome (result r)).
  - intros n. right. by right.
  - intros n _. cbn [result].
    destruct (verdict2_outcome mt (replies w n)) as [H|H]; [by left|right; by left].
  - by intros n r _ Hr.
Qed.

(** X1. In both scripts the poll sends the same status request every
    time, sleeps exactly 5 between two requests and at no other time:
    a poll that ended after [p] requests slept [p - 1] times, and one
    that ran out of activations after [p] requests slept [p] times. *)
Theorem X1_poll_requests_and_sleeps
    (tok : string) (cid : json) (mt : string) (w : world) (fuel n : nat) :
  poll_counts (poll_request1 tok cid) n
    (PostStory.check_media_status tok fuel cid w n)
  ∧ poll_counts (poll_request2 tok cid) n
      (UploadAndPostStory.check_media_status tok fuel cid mt w n).
Proof. split; [apply check1_counts | apply check2_counts]. Qed.

(** X2. In both scripts the poll never ends the process and never lets a
    [RequestException] out: it returns a Boolean, or runs out of
    activations, or dies of the [AttributeError] that [result.get]
    raises on a body that is not a JSON object. *)
Theorem X2_poll_outcomes
    (tok : string) (cid : json) (mt : string) (w : world) (fuel n : nat) :
  poll_outcome (result (PostStory.check_media_status tok fuel cid w n))
  ∧ poll_outcome
      (result (UploadAndPostStory.check_media_status tok fuel cid mt w n)).
Proof. split; [apply check1_outcome | apply check2_outcome]. Qed.

Lemma after_nil {A} (r : ran A) : after [] r = r.
Proof. by destruct r. Qed.

Lemma after_after {A} (l1 l2 : list event) (r : ran A) :
  after l1 (after l2 r) = after (l1 ++ l2) r.
Proof. unfold after. cbn [result next events]. by rewrite app_assoc. Qed.

Lemma check1_rounds tok cid w k : ∀ n fuel,
  (∀ i, (i < k)%nat → wants_retry (replies w (n + i)) = true) →
  PostStory.check_media_status tok (k + fuel) cid w n
  = after (concat (replicate k (round1 tok cid)))
          (PostStory.check_media_status tok fuel cid w (n + k)).
Proof.
  induction k as [|k IH]; intros n fuel Hbusy.
  - cbn [replicate concat Nat.add]. by rewrite after_nil, Nat.add_0_r.
  - destruct (wants_retry_polled w n) as [res Hres].
    { rewrite <- (Nat.add_0_r n). apply Hbusy. lia. }
    cbn [Nat.add replicate concat].
    rewrite (check1_in_progress _ _ _ _ _ _ Hres). fold (round1 tok cid).
    rewrite (IH (S n) fuel), after_after.
    + by replace (S n + k) with (n + S k) by lia.
    + intros i Hi. replace (S n + i) with (n + S i) by lia. apply Hbusy. lia.
Qed.

Lemma check2_rounds tok cid mt w k : ∀ n fuel,
  (∀ i, (i < k)%nat → wants_retry (replies w (n + i)) = true) →
  UploadAndPostStory.check_media_status tok (k + fuel) cid mt w n
  = after (concat (replicate k (round2 tok cid)))
          (UploadAndPostStory.check_media_status tok fuel cid mt w (n + k)).
Proof.
  induction k as [|k IH]; intros n fuel Hbusy.
  - cbn [replicate concat Nat.add]. by rewrite after_nil, Nat.add_0_r.
  - destruct (wants_retry_polled w n) as [res Hres].
    { rewrite <- (Nat.add_0_r n). apply Hbusy. lia. }
    cbn [Nat.add replicate concat].
    rewrite (check2_in_progress _ _ _ _ _ _ _ Hres). fold (round2 tok cid).
    rewrite (IH (S n) fuel), after_after.
    + by replace (S n + k) with (n + S k) by lia.
    + intros i Hi. replace (S n + i) with (n + S i) by lia. apply Hbusy. lia.
Qed.

(** X3. When the service reports IN_PROGRESS [k] times and then anything
    else, the poll (in both scripts) needs [k + 1] activations: with more
    than [k] it makes [k] rounds (status request, waiting line, sleep 5)
    and then ends exactly as a single poll of the last reply does, and
    with [k] or fewer it is still unfinished. *)
Theorem X3_poll_ends_after_the_last_in_progress
    (tok : string) (cid : json) (mt : string) (w : world) (n k fuel : nat) :
  (∀ i, (i < k)%nat → ∃ res, polled w (n + i) res "IN_PROGRESS") →
  wants_retry (replies w (n + k)) = false →
  ((k < fuel)%nat →
     PostStory.check_media_status tok fuel cid w n
     = after (concat (replicate k (round1 tok cid)))
             (PostStory.check_media_status tok 1 cid w (n + k))
     ∧ UploadAndPostStory.check_media_status tok fuel cid mt w n
       = after (concat (replicate k (round2 tok cid)))
               (UploadAndPostStory.check_media_status tok 1 cid mt w (n + k)))
  ∧ ((fuel ≤ k)%nat →
     result (PostStory.check_media_status tok fuel cid w n) = OutOfFuel
     ∧ result (UploadAndPostStory.check_media_status tok fuel cid mt w n) = OutOfFuel).
Proof.
  intros Hbusy Hlast.
  assert (∀ i, (i < k)%nat → wants_retry (replies w (n + i)) = true) as Hbusy'.
  { intros i Hi. destruct (Hbusy i Hi) as [res Hres].
    by apply (polled_wants_retry _ _ res). }
  split.
  - intros Hfuel. replace fuel with (k + S (fuel - S k)) by lia.
    rewrite check1_rounds, check2_rounds by done.
    by rewrite (check1_stop _ _ _ _ _ Hlast), (check1_stop _ 0 _ _ _ Hlast),
               (check2_stop _ _ _ _ _ _ Hlast), (check2_stop _ 0 _ _ _ _ Hlast).
  - intros Hfuel. replace k with (fuel + (k - fuel)) in Hbusy' by lia.
    rewrite <- (Nat.add_0_r fuel).
    rewrite check1_rounds, check2_rounds
      by (intros i Hi; apply Hbusy'; lia).
    done.
Qed.

(** X3 on a concrete world: two IN_PROGRESS replies, then FINISHED. *)
Lemma X3_witness :
  let w := world_of [reply_ok (status_is "IN_PROGRESS");
                     reply_ok (status_is "IN_PROGRESS");
                     reply_ok (status_is "FINISHED")] [] in
  PostStory.check_media_status "T" 9 (JStr "17895") w 0
  = Ran (Return true) 3
        (round1 "T" (JStr "17895") ++ round1 "T" (JStr "17895")
         ++ step1 ++ [Request (poll_request1 "T" (JStr "17895")); Print Stdout ready1])
  ∧ result (UploadAndPostStory.check_media_status "T" 2 (JStr "17895") "VIDEO" w 0)
    = OutOfFuel.
Proof.
  intros w.
  destruct (X3_poll_ends_after_the_last_in_progress "T" (JStr "17895") "VIDEO"
              w 0 2 9) as [Hdone _].
  { intros i Hi. exists (status_is "IN_PROGRESS").
    destruct i as [|[|i]]; [by split | by split | lia]. }
  { reflexivity. }
  destruct (X3_poll_ends_after_the_last_in_progress "T" (JStr "17895") "VIDEO"
              w 0 2 2) as [_ Hshort].
  { intros i Hi. exists (status_is "IN_PROGRESS").
    destruct i as [|[|i]]; [by split | by split | lia]. }
  { reflexivity. }
  split.
  - destruct Hdone as [-> _]; [lia|]. reflexivity.
  - destruct Hshort as [_ H]; [lia|]. exact H.
Defined.

Definition poll_error (rp : reply) : event :=
  Print Stdout [Lit "❌ Error checking media status: ";
                Exn (RequestException (fetch_error rp))].

(** X4. A status request that fails (no connection, or an HTTP status
    from 400 to 599) ends the poll at once with [False], in both
    scripts: one request, the error line, no sleep and no second try. *)
Theorem X4_failed_status_request_is_not_retried
    (tok : string) (fuel : nat) (cid : json) (mt : string) (w : world) (n : nat) :
  (replies w n = ConnectionError
   ∨ ∃ r, replies w n = Response r ∧ is_http_error (status_code r) = true) →
  PostStory.check_media_status tok (S fuel) cid w n
  = Ran (Return false) (S n)
        (step1 ++ [Request (poll_request1 tok cid); poll_error (replies w n)])
  ∧ UploadAndPostStory.check_media_status tok (S fuel) cid mt w n
    = Ran (Return false) (S n)
          (step2 ++ [Request (poll_request2 tok cid); poll_error (replies w n)]).
Proof.
  intros H.
  assert (ok_json (replies w n) = None) as E.
  { destruct H as [-> | (r & -> & Hr)]; [done|]. cbn. by rewrite Hr. }
  assert (wants_retry (replies w n) = false) as Hstop.
  { unfold wants_retry. by rewrite E. }
  rewrite (check1_stop _ _ _ _ _ Hstop), (check2_stop _ _ _ _ _ _ Hstop).
  unfold verdict1, verdict2. by rewrite E.
Qed.

(** X4 on a concrete world: the service answers 500. *)
Lemma X4_witness :
  let r := mkResponse 500 "Internal Server Error" None in
  let w := world_of [Response r] [] in
  PostStory.check_media_status "T" 3 (JStr "17895") w 0
  = Ran (Return false) 1
        (step1 ++ [Request (poll_request1 "T" (JStr "17895"));
                   Print Stdout [Lit "❌ Error checking media status: ";
                                 Exn (RequestException (Some r))]]).
Proof.
  intros r w.
  apply (X4_failed_status_request_is_not_retried "T" 2 (JStr "17895") "VIDEO" w 0).
  right. exists r. by split.
Defined.

(** X5. A successful status reply whose JSON is not an object (a list, a
    string, a number, null) makes [result.get] raise [AttributeError];
    the [except RequestException] clause does not catch it, so in both
    scripts it escapes the poll after the one request. *)
Theorem X5_non_object_status_body_escapes_the_poll
    (tok : string) (fuel : nat) (cid : json) (mt : string) (w : world) (n : nat)
    (v : json) :
  ok_json (replies w n) = Some v →
  (∀ res, v ≠ JObj res) →
  PostStory.check_media_status tok (S fuel) cid w n
  = Ran (Raise AttributeError) (S n) (step1 ++ [Request (poll_request1 tok cid)])
  ∧ UploadAndPostStory.check_media_status tok (S fuel) cid mt w n
    = Ran (Raise AttributeError) (S n) (step2 ++ [Request (poll_request2 tok cid)]).
Proof.
  intros E Hv.
  assert (wants_retry (replies w n) = false) as Hstop.
  { unfold wants_retry. rewrite E. destruct v; try done. by destruct (Hv o). }
  rewrite (check1_stop _ _ _ _ _ Hstop), (check2_stop _ _ _ _ _ _ Hstop).
  unfold verdict1, verdict2. rewrite E.
  destruct v; try done. by destruct (Hv o).
Qed.

(** X5 on a concrete world: the body is an empty JSON list. *)
Lemma X5_witness :
  let w := world_of [Response (mkResponse 200 "[]" (Some (JArr [])))] [] in
  UploadAndPostStory.check_media_status "T" 3 (JStr "17895") "IMAGE" w 0
  = Ran (Raise AttributeError) 1
        (step2 ++ [Request (poll_request2 "T" (JStr "17895"))]).
Proof.
  intros w.
  apply (X5_non_object_status_body_escapes_the_poll "T" 2 (JStr "17895") "IMAGE"
           w 0 (JArr [])); done.
Defined.

(** ** Container creation and promotion: what comes back *)

(** The reply is a success whose JSON object holds [v] under ["id"]. *)
Definition id_from (rp : reply) (v : json) : Prop :=
  ∃ res, ok_json rp = Some (JObj res) ∧ res !! "id" = Some v.

(** The same, for a reply with status exactly 200. *)
Definition id_from_200 (rp : reply) (v : json) : Prop :=
  ∃ r res, rp = Response r ∧ status_code r = 200%Z
           ∧ body r = Some (JObj res) ∧ res !! "id" = Some v.

(** The function made its one request and came back to its caller: it
    did not end the process and no [RequestException] escaped. *)
Definition came_back (n : nat) (r : ran json) : Prop :=
  next r = S n
  ∧ (∀ c, result r ≠ SysExit c)
  ∧ result r ≠ OutOfFuel
  ∧ (∀ x, result r ≠ Raise (RequestException x)).

Ltac unfold_call :=
  unfold try_except, except_RequestException, raise_for_status, response_json,
    py_in, py_getitem;
  unfold_M; unfold send.

Ltac use_equations :=
  repeat match goal with
         | H : _ = _ |- _ => rewrite H
         end.

Lemma upload_media1_back tok acct media_url mt w n :
  came_back n (PostStory.upload_media tok acct media_url mt w n).
Proof.
  unfold came_back, PostStory.upload_media. rewrite print_bind.
  generalize (PostStory.upload_media_data media_url mt) as d. intros d.
  unfold after. cbn [result next events]. unfold_call.
  repeat (break_match; simplify_eq/=); by repeat split.
Qed.

Lemma upload_media1_return tok acct media_url mt w n v :
  result (PostStory.upload_media tok acct media_url mt w n) = Return v →
  v = JNull ∨ id_from (replies w n) v.
Proof.
  unfold PostStory.upload_media. rewrite print_bind.
  generalize (PostStory.upload_media_data media_url mt) as d. intros d.
  unfold after, id_from, ok_json. cbn [result next events]. unfold_call.
  repeat (break_match; simplify_eq/=); intros; simplify_eq;
    try (by left); right; eexists; use_equations; by split.
Qed.

Lemma upload_media1_id tok acct media_url mt w n v :
  id_from (replies w n) v →
  result (PostStory.upload_media tok acct media_url mt w n) = Return v.
Proof.
  intros (res & H1 & H2). unfold PostStory.upload_media. rewrite print_bind.
  unfold try_except. rewrite (fetch_ok _ _ _ _ _ H1).
  cbn [py_in py_getitem]. unfold_M. by rewrite H2.
Qed.

Lemma upload_media2_back tok acct media_url mt w n :
  came_back n (UploadAndPostStory.upload_media tok acct media_url mt w n).
Proof.
  unfold came_back, UploadAndPostStory.upload_media. rewrite print_bind.
  generalize (UploadAndPostStory.upload_media_data media_url mt) as d. intros d.
  unfold after. cbn [result next events]. unfold_call.
  repeat (break_match; simplify_eq/=); by repeat split.
Qed.

Lemma upload_media2_return tok acct media_url mt w n v :
  result (UploadAndPostStory.upload_media tok acct media_url mt w n) = Return v →
  v = JNull ∨ id_from_200 (replies w n) v.
Proof.
  unfold UploadAndPostStory.upload_media. rewrite print_bind.
  generalize (UploadAndPostStory.upload_media_data media_url mt) as d. intros d.
  unfold after, id_from_200. cbn [result next events]. unfold_call.
  repeat (break_match; simplify_eq/=); intros; simplify_eq;
    try (by left); right; eexists _, _; repeat split; try done;
    by apply Z.eqb_eq, negb_false_iff.
Qed.

Lemma upload_media2_id tok acct media_url mt w n v :
  id_from_200 (replies w n) v →
  result (UploadAndPostStory.upload_media tok acct media_url mt w n) = Return v.
Proof.
  intros (r & res & H1 & H2 & H3 & H4).
  unfold UploadAndPostStory.upload_media. rewrite print_bind.
  unfold_call. unfold after. rewrite H1. cbv beta iota. rewrite H3. cbv beta iota.
  rewrite H2. cbn. by rewrite H4.
Qed.

Definition publish_request1 (tok acct : string) (cid : json) : request :=
  mkRequest POST (PostStory.MEDIA_PUBLISH_URL acct) (PostStory.access_params tok) ∅
            (FormData {[ "creation_id" := cid ]}).

Definition publish_request2 (tok acct : string) (cid : json) : request :=
  mkRequest POST (UploadAndPostStory.MEDIA_PUBLISH_URL acct)
            (UploadAndPostStory.access_params tok) ∅
            (FormData {[ "creation_id" := cid ]}).

Lemma publish_story1_requests tok acct cid w n :
  requests_of (events (PostStory.publish_story tok acct cid w n))
  = [publish_request1 tok acct cid].
Proof.
  unfold PostStory.publish_story, publish_request1. rewrite print_bind.
  generalize ({[ "creation_id" := cid ]} : dict) as d. intros d.
  unfold after. cbn [result next events]. unfold_call.
  repeat (break_match; simplify_eq/=); reflexivity.
Qed.

Lemma publish_story2_requests tok acct cid w n :
  requests_of (events (UploadAndPostStory.publish_story tok acct cid w n))
  = [publish_request2 tok acct cid].
Proof.
  unfold UploadAndPostStory.publish_story, publish_request2. rewrite print_bind.
  generalize ({[ "creation_id" := cid ]} : dict) as d. intros d.
  unfold after. cbn [result next events]. unfold_call.
  repeat (break_match; simplify_eq/=); reflexivity.
Qed.

Lemma publish_story1_back tok acct cid w n :
  came_back n (PostStory.publish_story tok acct cid w n).
Proof.
  unfold came_back, PostStory.publish_story. rewrite print_bind.
  generalize ({[ "creation_id" := cid ]} : dict) as d. intros d.
  unfold after. cbn [result next events]. unfold_call.
  repeat (break_match; simplify_eq/=); by repeat split.
Qed.

Lemma publish_story2_back tok acct cid w n :
  came_back n (UploadAndPostStory.publish_story tok acct cid w n).
Proof.
  unfold came_back, UploadAndPostStory.publish_story. rewrite print_bind.
  generalize ({[ "creation_id" := cid ]} : dict) as d. intros d.
  unfold after. cbn [result next events]. unfold_call.
  repeat (break_match; simplify_eq/=); by repeat split.
Qed.





(** X6. [upload_media] always makes its one request and comes back to
    its caller.  In [post_story.py] it returns a value other than [None]
    exactly when the reply is a success (no 4xx/5xx status) whose JSON
    object has that value under ["id"]; in [upload_and_post_story.py]
    the reply must in addition have status 200. *)
Theorem X6_container_id_comes_from_the_reply
    (tok acct : string) (media_url : json) (mt : string) (w : world) (n : nat) :
  let r1 := PostStory.upload_media tok acct media_url mt w n in
  let r2 := UploadAndPostStory.upload_media tok acct media_url mt w n in
  (came_back n r1 ∧ came_back n r2)
  ∧ (∀ v, v ≠ JNull → result r1 = Return v ↔ id_from (replies w n) v)
  ∧ (∀ v, v ≠ JNull → result r2 = Return v ↔ id_from_200 (replies w n) v).
Proof.
  intros r1 r2. split; [split|split].
  - apply upload_media1_back.
  - apply upload_media2_back.
  - intros v Hv. split; [|apply upload_media1_id].
    intros H. by destruct (upload_media1_return _ _ _ _ _ _ _ H).
  - intros v Hv. split; [|apply upload_media2_id].
    intros H. by destruct (upload_media2_return _ _ _ _ _ _ _ H).
Qed.

(** X7. The two scripts disagree on a reply with a success status other
    than 200 (201, say) that carries an ["id"]: [post_story.upload_media]
    returns the id, while [upload_and_post_story.upload_media] reports an
    API error with the status and the body and returns [None]. *)
Theorem X7_only_status_200_counts_in_the_second_script
    (tok acct : string) (media_url : json) (mt : string) (w : world) (n : nat)
    (r : response) (res : dict) (v : json) :
  replies w n = Response r →
  status_code r ≠ 200%Z → is_http_error (status_code r) = false →
  body r = Some (JObj res) → res !! "id" = Some v →
  result (PostStory.upload_media tok acct media_url mt w n) = Return v
  ∧ UploadAndPostStory.upload_media tok acct media_url mt w n
    = Ran (Return JNull) (S n)
          [Print Stdout [Lit "Step 2: Uploading media to Instagram..."];
           Request (upload_request2 tok acct
                      (UploadAndPostStory.upload_media_data media_url mt));
           Print Stdout [Lit "❌ Instagram API Error (";
                         Val (JNum (inject_Z (status_code r))); Lit "):"];
           Print Stdout [Lit "   Response: "; Val (JObj res)]].
Proof.
  intros H1 H2 H3 H4 H5. split.
  - apply upload_media1_id. exists res. split; [|done].
    unfold ok_json. by rewrite H1, H3.
  - apply Z.eqb_neq in H2.
    unfold UploadAndPostStory.upload_media, upload_request2. rewrite print_bind.
    unfold_call. unfold after. rewrite H1. cbv beta iota. rewrite H4. cbv beta iota.
    by rewrite H2.
Qed.

(** X7 on a concrete world: the service answers 201 with an id. *)
Lemma X7_witness :
  let w := world_of [Response (mkResponse 201 EmptyString
                                 (Some (JObj {[ "id" := JStr "17895" ]})))] [] in
  result (PostStory.upload_media "T" "A" (JStr "https://host/v.mp4") "VIDEO" w 0)
  = Return (JStr "17895")
  ∧ result (UploadAndPostStory.upload_media "T" "A" (JStr "https://host/v.mp4")
              "VIDEO" w 0)
    = Return JNull.
Proof.
  intros w.
  destruct (X7_only_status_200_counts_in_the_second_script "T" "A"
              (JStr "https://host/v.mp4") "VIDEO" w 0
              (mkResponse 201 EmptyString (Some (JObj {[ "id" := JStr "17895" ]})))
              {[ "id" := JStr "17895" ]} (JStr "17895"))
    as [H1 H2]; [done|done|done|done|done|].
  split; [exact H1|]. by rewrite H2.
Defined.


(** ** The pipelines *)

Lemma try_except_run {A} (m : M A) (h : exn → option (M A)) w n :
  try_except m h w n
  = match result (m w n) with
    | Raise e =>
        match h e with
        | Some k => after (events (m w n)) (k w (next (m w n)))
        | None => m w n
        end
    | _ => m w n
    end.
Proof.
  unfold try_except, after.
  destruct (m w n) as [[a|e|c|] n1 l1]; cbn [result next events]; try done.
  destruct (h e) as [k|]; [|done]. by destruct (k w n1).
Qed.

(** A run that, if it ends the process, does so with exit code 1. *)
Definition exits_with_1 {A} (r : ran A) : Prop :=
  ∀ c, result r = SysExit c → c = 1%Z.

Lemma exits_with_1_after {A} (l : list event) (r : ran A) :
  exits_with_1 r → exits_with_1 (after l r).
Proof. done. Qed.

Lemma exits_with_1_bind {A B} (m : M A) (k : A → M B) w n :
  exits_with_1 (m w n) → (∀ a n', exits_with_1 (k a w n')) →
  exits_with_1 ((m ≫= k) w n).
Proof.
  intros Hm Hk. rewrite bind_run.
  destruct (result (m w n)) as [a|e|c|] eqn:E; try done.
  - apply exits_with_1_after, Hk.
  - intros c' [= <-]. by apply Hm.
Qed.

Lemma exits_with_1_try {A} (m : M A) (h : exn → option (M A)) w n :
  exits_with_1 (m w n) → (∀ e k n', h e = Some k → exits_with_1 (k w n')) →
  exits_with_1 (try_except m h w n).
Proof.
  intros Hm Hh. rewrite try_except_run.
  destruct (result (m w n)) as [a|e|c|] eqn:E; try done.
  destruct (h e) as [k|] eqn:Ek; [|done].
  by apply exits_with_1_after, (Hh e).
Qed.

Lemma exits_with_1_print {A} (line : fstring) (m : M A) w n :
  exits_with_1 (m w n) → exits_with_1 ((print line;; m) w n).
Proof. rewrite print_bind. apply exits_with_1_after. Qed.

Lemma exits_with_1_eprint {A} (line : fstring) (m : M A) w n :
  exits_with_1 (m w n) → exits_with_1 ((eprint line;; m) w n).
Proof. rewrite eprint_bind. apply exits_with_1_after. Qed.

Lemma exits_with_1_exit {A} w n : exits_with_1 (@sys_exit A 1 w n).
Proof. by intros c [= <-]. Qed.

Lemma exits_with_1_came_back n (r : ran json) : came_back n r → exits_with_1 r.
Proof. intros (_ & H & _) c Hc. by destruct (H c). Qed.

Lemma exits_with_1_check1 tok fuel cid w n :
  exits_with_1 (PostStory.check_media_status tok fuel cid w n).
Proof.
  intros c Hc.
  pose proof (check1_outcome tok cid w fuel n) as H.
  rewrite Hc in H. by destruct H as [[b ?]|[?|?]].
Qed.

Lemma exits_with_1_check2 tok fuel cid mt w n :
  exits_with_1 (UploadAndPostStory.check_media_status tok fuel cid mt w n).
Proof.
  intros c Hc.
  pose proof (check2_outcome tok cid mt w fuel n) as H.
  rewrite Hc in H. by destruct H as [[b ?]|[?|?]].
Qed.

(** ** The content-hosting upload on every world *)

(** The lines a run writes to stdout, in order. *)
Fixpoint stdout_of (l : list event) : list fstring :=
  match l with
  | [] => []
  | Print Stdout line :: l' => line :: stdout_of l'
  | _ :: l' => stdout_of l'
  end.

Lemma stdout_of_app (l1 l2 : list event) :
  stdout_of (l1 ++ l2) = (stdout_of l1 ++ stdout_of l2)%list.
Proof.
  induction l1 as [|[rq|s|[|] line] l1 IH]; cbn; [done|done|done| |done].
  by rewrite IH.
Qed.

(** The PUT reply created or replaced the object and names [v] as its
    download URL. *)
Definition stored_at (rp : reply) (v : json) : Prop :=
  ∃ r res item,
    rp = Response r
    ∧ (status_code r = 200%Z ∨ status_code r = 201%Z)
    ∧ body r = Some (JObj res)
    ∧ res !! "content" = Some (JObj item)
    ∧ item !! "download_url" = Some v.

Lemma upload_outcome tok repo branch b64 path w n :
  let r := GithubUploader.upload_to_github tok repo branch b64 path w n in
  ((∃ v, result r = Return v) ∨ result r = SysExit 1%Z)
  ∧ stdout_of (events r) = [].
Proof.
  unfold_upload.
  repeat (break_match; simplify_eq/=); split; eauto.
Qed.

Lemma upload_return tok repo branch b64 path w n v :
  let r := GithubUploader.upload_to_github tok repo branch b64 path w n in
  result r = Return v →
  stored_at (replies w (S n)) v
  ∧ next r = S (S n)
  ∧ ∃ d, requests_of (events r)
         = [probe_request tok repo path; put_request tok repo path d].
Proof.
  unfold stored_at, probe_request, put_request. unfold_upload.
  repeat (break_match; simplify_eq/=); intros; simplify_eq;
    (split; [eexists _, _, _; repeat split; try done;
             match goal with
             | H : (_ || _) = true |- _ =>
                 apply orb_true_iff in H; destruct H as [H|H];
                 apply Z.eqb_eq in H; first [by left | by right]
             end
            | split; [done | by eexists]]).
Qed.

Lemma upload_requests tok repo branch b64 path w n :
  let r := GithubUploader.upload_to_github tok repo branch b64 path w n in
  next r = n + length (requests_of (events r))
  ∧ (requests_of (events r) = []
     ∨ requests_of (events r) = [probe_request tok repo path]
     ∨ ∃ d, requests_of (events r)
            = [probe_request tok repo path; put_request tok repo path d]).
Proof.
  unfold probe_request, put_request. unfold_upload.
  repeat (break_match; simplify_eq/=);
    (split; [lia | first [by left | by (right; left) | right; right; by eexists]]).
Qed.

(** The local checks of [upload_to_github] pass for the file at [path]. *)
Definition uploadable (w : world) (path : string) : Prop :=
  ∃ f, files w path = Some f ∧ isfile f = true
       ∧ (getsize f ≤ 100 * 1024 * 1024)%Z.

Lemma upload_new_object tok repo branch b64 path w n probe v :
  uploadable w path →
  replies w n = Response probe → status_code probe ≠ 200%Z →
  stored_at (replies w (S n)) v →
  result (GithubUploader.upload_to_github tok repo branch b64 path w n) = Return v.
Proof.
  intros (f & Hf & Hreg & Hsz) Hp Hs (r & res & item & Hr & Hst & Hb & Hc & Hd).
  assert ((getsize f >? 100 * 1024 * 1024)%Z = false) as Hle by lia.
  assert ((status_code r =? 200)%Z || (status_code r =? 201)%Z = true) as Hok.
  { destruct Hst as [-> | ->]; reflexivity. }
  apply Z.eqb_neq in Hs. unfold_upload.
  reduce_with ltac:(rewrite ?Hf, ?Hreg, ?Hle, ?Hp, ?Hs, ?Hr, ?Hok, ?Hb, ?Hc, ?Hd).
  reflexivity.
Qed.

(** X9. [upload_to_github] ends in one of two ways only: it returns, or
    it exits with code 1; every exception is caught inside.  It writes
    nothing to stdout.  It sends the probe first and the PUT second and
    nothing else, and it returns [v] only when the PUT (its second
    request) was answered 200 or 201 with [v] as [content.download_url]. *)
Theorem X9_upload_to_github_outcomes
    (tok repo branch : string) (b64 : list Byte.byte → string)
    (path : string) (w : world) (n : nat) :
  let r := GithubUploader.upload_to_github tok repo branch b64 path w n in
  ((∃ v, result r = Return v) ∨ result r = SysExit 1%Z)
  ∧ stdout_of (events r) = []
  ∧ (requests_of (events r) = []
     ∨ requests_of (events r) = [probe_request tok repo path]
     ∨ ∃ d, requests_of (events r)
            = [probe_request tok repo path; put_request tok repo path d])
  ∧ (∀ v, result r = Return v →
          stored_at (replies w (S n)) v ∧ next r = S (S n)
          ∧ ∃ d, requests_of (events r)
                 = [probe_request tok repo path; put_request tok repo path d]).
Proof.
  intros r. split; [apply upload_outcome|]. split; [apply upload_outcome|].
  split; [apply upload_requests|]. intros v. apply upload_return.
Qed.

(** X10. A file that passes the local checks, a probe that does not
    answer 200 and a PUT answered 200 or 201 with a download URL: then
    [upload_to_github] returns that URL. *)
Theorem X10_upload_to_github_returns_the_download_url
    (tok repo branch : string) (b64 : list Byte.byte → string)
    (path : string) (w : world) (n : nat) (probe : response) (v : json) :
  uploadable w path →
  replies w n = Response probe → status_code probe ≠ 200%Z →
  stored_at (replies w (S n)) v →
  result (GithubUploader.upload_to_github tok repo branch b64 path w n) = Return v.
Proof. apply upload_new_object. Qed.

Definition created (download_url : string) : reply :=
  Response (mkResponse 201 EmptyString
              (Some (JObj {[ "content" :=
                               JObj {[ "download_url" := JStr download_url ]} ]}))).

(** X10 on a concrete world: a 404 probe and a 201 PUT. *)
Lemma X10_witness :
  let w := world_of [Response (mkResponse 404 "Not Found" None);
                     created "https://host/media/photo.png"]
                    [("photo.png", small_file)] in
  result (GithubUploader.upload_to_github "G" "o/r" "main" (λ _, "AA==")
            "photo.png" w 0)
  = Return (JStr "https://host/media/photo.png").
Proof.
  intros w.
  apply (X10_upload_to_github_returns_the_download_url "G" "o/r" "main"
           (λ _, "AA==") "photo.png" w 0 (mkResponse 404 "Not Found" None)).
  - exists small_file. split; [done|]. split; [done|]. cbn. lia.
  - reflexivity.
  - discriminate.
  - eexists _, _, _. split; [done|]. split; [by right|]. by repeat split.
Defined.

(** The [sha] a 200 probe offers, if any. *)
Definition sha_of (probe : response) : option json :=
  match body probe with
  | Some (JObj existing) => existing !! "sha"
  | _ => None
  end.

(** X11. When the probe answers 200 but its body offers no [sha] (it is
    not JSON, not an object, or an object without that key, as for a
    directory listing), [upload_to_github] exits with code 1 and the PUT
    is never sent. *)
Theorem X11_probe_200_without_sha_stops_the_upload
    (tok repo branch : string) (b64 : list Byte.byte → string)
    (path : string) (w : world) (n : nat) (probe : response) :
  uploadable w path →
  replies w n = Response probe → status_code probe = 200%Z →
  sha_of probe = None →
  let r := GithubUploader.upload_to_github tok repo branch b64 path w n in
  result r = SysExit 1%Z ∧ next r = S n
  ∧ requests_of (events r) = [probe_request tok repo path].
Proof.
  intros (f & Hf & Hreg & Hsz) Hp Hs Hsha r. subst r.
  assert ((getsize f >? 100 * 1024 * 1024)%Z = false) as Hle by lia.
  unfold sha_of in Hsha. unfold probe_request. unfold_upload.
  reduce_with ltac:(rewrite ?Hf, ?Hreg, ?Hle, ?Hp, ?Hs, ?Z.eqb_refl).
  destruct (body probe) as [[| | | | |existing]|]; cbv beta iota;
    try (by repeat split).
  rewrite Hsha. by repeat split.
Qed.

(** X11 on a concrete world: the path is a directory on the host, so the
    probe answers 200 with a JSON list. *)
Lemma X11_witness :
  let w := world_of [Response (mkResponse 200 "[]" (Some (JArr [])))]
                    [("photo.png", small_file)] in
  result (GithubUploader.upload_to_github "G" "o/r" "main" (λ _, "AA==")
            "photo.png" w 0) = SysExit 1%Z
  ∧ requests_of (events (GithubUploader.upload_to_github "G" "o/r" "main"
                           (λ _, "AA==") "photo.png" w 0))
    = [probe_request "G" "o/r" "photo.png"].
Proof.
  intros w.
  destruct (X11_probe_200_without_sha_stops_the_upload "G" "o/r" "main"
              (λ _, "AA==") "photo.png" w 0 (mkResponse 200 "[]" (Some (JArr []))))
    as (H1 & _ & H2); [|done|done|done|by split].
  exists small_file. split; [done|]. split; [done|]. cbn. lia.
Defined.



(** ** The story pipeline of post_story.py *)

Lemma publish_request1_inj tok acct c c' :
  publish_request1 tok acct c = publish_request1 tok acct c' → c = c'.
Proof.
  intros H.
  apply (f_equal (λ rq, match data rq with
                        | FormData d => d !! "creation_id"
                        | _ => None
                        end)) in H.
  unfold publish_request1 in H. cbn [data] in H.
  rewrite !lookup_singleton_eq in H. congruence.
Qed.

Lemma publish_request2_inj tok acct c c' :
  publish_request2 tok acct c = publish_request2 tok acct c' → c = c'.
Proof.
  intros H.
  apply (f_equal (λ rq, match data rq with
                        | FormData d => d !! "creation_id"
                        | _ => None
                        end)) in H.
  unfold publish_request2 in H. cbn [data] in H.
  rewrite !lookup_singleton_eq in H. congruence.
Qed.

Lemma events_after {A} (l : list event) (r : ran A) :
  events (after l r) = (l ++ events r)%list.
Proof. done. Qed.

Lemma next_after {A} (l : list event) (r : ran A) : next (after l r) = next r.
Proof. done. Qed.

Definition story_id_line (story_id : json) : event :=
  Print Stdout [Lit "📱 Story ID: "; Val story_id].

(** The requests of a whole run of [post]: the container request, the
    status requests for the container it returned, and the promotion of
    that same container, which comes last and only after a poll that
    returned [True]. *)
Lemma post_requests tok acct fuel media_url mt w n :
  let u := PostStory.upload_media tok acct (JStr media_url) mt w n in
  let up := upload_request1 tok acct (PostStory.upload_media_data (JStr media_url) mt) in
  let r := PostStory.post tok acct fuel media_url mt w n in
  (requests_of (events r) = [up] ∧ result r ≠ Return tt)
  ∨ ∃ cid p,
      result u = Return cid ∧ truthy cid = true
      ∧ let c := PostStory.check_media_status tok fuel cid w (S n) in
        next c = S n + p
        ∧ ((requests_of (events r) = up :: replicate p (poll_request1 tok cid)
            ∧ result r ≠ Return tt)
           ∨ (result c = Return true ∧ (0 < p)%nat
              ∧ requests_of (events r)
                = up :: replicate p (poll_request1 tok cid)
                  ++ [publish_request1 tok acct cid]
              ∧ (result r = Return tt →
                 ∃ sid, result (PostStory.publish_story tok acct cid w (S n + p))
                        = Return sid
                        ∧ truthy sid = true ∧ story_id_line sid ∈ events r))).
Proof.
  intros u up r. subst r. unfold PostStory.post.
  rewrite !print_bind, bind_run. fold u.
  pose proof (upload_media1_requests tok acct (JStr media_url) mt w n) as Hu.
  destruct (upload_media1_back tok acct (JStr media_url) mt w n) as (Hn & _).
  fold u up in Hu, Hn.
  rewrite !events_after, !result_after. cbn [app requests_of].
  destruct (result u) as [cid|e|c'|] eqn:Eu;
    [|left; cbn [events result]; by rewrite Hu..].
  rewrite events_after, result_after, requests_of_app, Hu. cbn [app].
  destruct (truthy cid) eqn:Et; cbn [negb].
  2:{ left. rewrite print_bind, events_after. done. }
  right. exists cid. rewrite Hn, bind_run.
  set (c := PostStory.check_media_status tok fuel cid w (S n)).
  destruct (check1_counts tok cid w fuel (S n)) as (Hle & Hreq & _ & Hlt).
  fold c in Hle, Hreq, Hlt.
  exists (next c - S n). split; [done|]. split; [done|].
  cbv zeta. split; [lia|].
  replace (S n + (next c - S n)) with (next c) by lia.
  destruct (result c) as [[|]|e|c'|] eqn:Ec; cbn [negb];
    rewrite ?events_after, ?result_after, ?requests_of_app, ?Hreq; cbn [events result].
  - right. split; [done|]. split.
    { unfold settled in Hlt. rewrite Ec in Hlt. specialize (Hlt eq_refl). lia. }
    rewrite bind_run.
    pose proof (publish_story1_requests tok acct cid w (next c)) as Hp.
    destruct (result (PostStory.publish_story tok acct cid w (next c))) as [sid|e|c'|];
      cbn [events result]; [|by rewrite Hp..].
    rewrite events_after, result_after, requests_of_app, Hp.
    destruct (truthy sid) eqn:Es; unfold_M; cbn [result events requests_of app].
    + split; [done|]. intros _. exists sid. split; [done|]. split; [done|].
      rewrite !elem_of_cons, !elem_of_app, !elem_of_cons. do 5 right. right. by left.
    + by split.
  - left. rewrite print_bind, events_after. cbn. by rewrite app_nil_r.
  - left. by rewrite ?Hreq.
  - left. by rewrite ?Hreq.
  - left. by rewrite ?Hreq.
Qed.

(** No other request of the pipeline is a promotion. *)
Lemma publish_among_polls1 tok acct c (rq : request) cid p (tail : list request) :
  publish_request1 tok acct c
  ∈ (rq :: replicate p (poll_request1 tok cid) ++ tail)%list →
  publish_request1 tok acct c = rq ∨ publish_request1 tok acct c ∈ tail.
Proof.
  rewrite elem_of_cons, elem_of_app. intros [H|[H|H]]; [by left| |by right].
  apply elem_of_replicate in H as [H _]. discriminate H.
Qed.

(** X13. In [post_story.py] a container is promoted only after it has
    been created and polled ready: whenever [main] sends a publish
    request, its [creation_id] is the truthy id that [upload_media]
    returned and [check_media_status] returned [True] for it.  When
    [main] returns normally its requests were, in order, the container
    request, one or more status requests and the publish request, all
    for that one container, and the story id line was printed. *)
Theorem X13_post_story_publishes_only_a_ready_container
    (upper : string → string) (tok acct : string) (fuel : nat)
    (prog arg1 arg2 : string) (w : world) (n : nat) :
  let r := PostStory.main tok acct upper fuel [prog; arg1; arg2] w n in
  let u := PostStory.upload_media tok acct (JStr arg1) (upper arg2) w n in
  let up := upload_request1 tok acct
              (PostStory.upload_media_data (JStr arg1) (upper arg2)) in
  (∀ c, publish_request1 tok acct c ∈ requests_of (events r) →
        result u = Return c ∧ truthy c = true
        ∧ result (PostStory.check_media_status tok fuel c w (S n)) = Return true)
  ∧ (result r = Return tt →
     ∃ cid sid p,
       (0 < p)%nat
       ∧ requests_of (events r)
         = up :: replicate p (poll_request1 tok cid)
           ++ [publish_request1 tok acct cid]
       ∧ result (PostStory.publish_story tok acct cid w (S n + p)) = Return sid
       ∧ truthy sid = true
       ∧ story_id_line sid ∈ events r).
Proof.
  intros r u up. subst r. unfold PostStory.main.
  destruct (negb (String.eqb (upper arg2) "VIDEO" || String.eqb (upper arg2) "IMAGE")).
  { split; [|done]. intros c Hc. cbn in Hc. by apply elem_of_nil in Hc. }
  destruct (post_requests tok acct fuel arg1 (upper arg2) w n)
    as [[Hr Hno] | (cid & p & Hu & Ht & Hnext & [[Hr Hno] | (Hready & Hp & Hr & Hok)])];
    fold u up in Hr |- *; rewrite Hr.
  - split; [|done]. intros c Hc. apply list_elem_of_singleton in Hc. discriminate Hc.
  - split; [|done]. intros c Hc.
    rewrite <- (app_nil_r (replicate _ _)) in Hc.
    apply publish_among_polls1 in Hc as [Hc|Hc]; [discriminate Hc|].
    by apply elem_of_nil in Hc.
  - split.
    + intros c Hc. apply publish_among_polls1 in Hc as [Hc|Hc]; [discriminate Hc|].
      apply list_elem_of_singleton, publish_request1_inj in Hc. by subst.
    + intros Hret. destruct (Hok Hret) as (sid & Hsid & Htr & Hin).
      by exists cid, sid, p.
Qed.

(** X13 on a concrete world: a container that is ready at the first poll. *)
Lemma X13_witness :
  let w := world_of [reply_ok {[ "id" := JStr "17895" ]};
                     reply_ok (status_is "FINISHED");
                     reply_ok {[ "id" := JStr "17999" ]}] [] in
  let r := PostStory.main "T" "A" upper_ascii 3
             ["post_story.py"; "https://host/v.mp4"; "video"] w 0 in
  ∃ cid sid p,
    requests_of (events r)
    = upload_request1 "T" "A"
        (PostStory.upload_media_data (JStr "https://host/v.mp4") "VIDEO")
      :: replicate p (poll_request1 "T" cid) ++ [publish_request1 "T" "A" cid]
    ∧ story_id_line sid ∈ events r.
Proof.
  intros w r.
  destruct (X13_post_story_publishes_only_a_ready_container upper_ascii "T" "A" 3
              "post_story.py" "https://host/v.mp4" "video" w 0) as [_ Hok].
  destruct (Hok eq_refl) as (cid & sid & p & _ & Hreq & _ & _ & Hin).
  by exists cid, sid, p.
Defined.

(** ** The story pipeline of upload_and_post_story.py *)

Lemma publish_among_polls2 tok acct c (rq : request) cid p (tail : list request) :
  publish_request2 tok acct c
  ∈ (rq :: replicate p (poll_request2 tok cid) ++ tail)%list →
  publish_request2 tok acct c = rq ∨ publish_request2 tok acct c ∈ tail.
Proof.
  rewrite elem_of_cons, elem_of_app. intros [H|[H|H]]; [by left| |by right].
  apply elem_of_replicate in H as [H _]. discriminate H.
Qed.

(** What [upload_and_post] does once the file is hosted at [media_url]. *)
Definition hosted (tok acct : string) (fuel : nat) (media_url : json)
    (mt : string) : M unit :=
  container_id ← UploadAndPostStory.upload_media tok acct media_url mt;
  if negb (truthy container_id) then
    print [Lit "❌ Failed to upload media to Instagram. Aborting."];;
    sys_exit 1
  else
    ready ← UploadAndPostStory.check_media_status tok fuel container_id mt;
    if negb ready then
      print [Lit "❌ Media is not ready for publishing. Aborting."];;
      sys_exit 1
    else
      story_id ← UploadAndPostStory.publish_story tok acct container_id;
      if truthy story_id then
        print [Lit "🎉 Success! Your Instagram Story has been published."];;
        print [Lit "📱 Story ID: "; Val story_id];;
        print [Lit "🔗 Media hosted at: "; Val media_url];;
        print [Lit "💡 Note: Stories expire after 24 hours."];;
        print [Lit "💡 You can manually add this Story to Highlights in the Instagram app."]
      else
        print [Lit "❌ Failed to publish Story."];;
        sys_exit 1.

(** The requests of [hosted], as for [post_story.py]. *)
Lemma hosted_requests tok acct fuel media_url mt w n :
  let u := UploadAndPostStory.upload_media tok acct media_url mt w n in
  let up := upload_request2 tok acct
              (UploadAndPostStory.upload_media_data media_url mt) in
  let r := hosted tok acct fuel media_url mt w n in
  (requests_of (events r) = [up] ∧ result r ≠ Return tt)
  ∨ ∃ cid p,
      result u = Return cid ∧ truthy cid = true
      ∧ let c := UploadAndPostStory.check_media_status tok fuel cid mt w (S n) in
        next c = S n + p
        ∧ ((requests_of (events r) = up :: replicate p (poll_request2 tok cid)
            ∧ result r ≠ Return tt)
           ∨ (result c = Return true ∧ (0 < p)%nat
              ∧ requests_of (events r)
                = up :: replicate p (poll_request2 tok cid)
                  ++ [publish_request2 tok acct cid]
              ∧ (result r = Return tt →
                 ∃ sid, result (UploadAndPostStory.publish_story tok acct cid w (S n + p))
                        = Return sid
                        ∧ truthy sid = true ∧ story_id_line sid ∈ events r))).
Proof.
  intros u up r. subst r. unfold hosted.
  rewrite bind_run. fold u.
  pose proof (upload_media2_requests tok acct media_url mt w n) as Hu.
  destruct (upload_media2_back tok acct media_url mt w n) as (Hn & _).
  fold u up in Hu, Hn.
  destruct (result u) as [cid|e|c'|] eqn:Eu;
    [|left; cbn [events result]; by rewrite Hu..].
  rewrite events_after, result_after, requests_of_app, Hu. cbn [app].
  destruct (truthy cid) eqn:Et; cbn [negb].
  2:{ left. rewrite print_bind, events_after. done. }
  right. exists cid. rewrite Hn, bind_run.
  set (c := UploadAndPostStory.check_media_status tok fuel cid mt w (S n)).
  destruct (check2_counts tok cid mt w fuel (S n)) as (Hle & Hreq & _ & Hlt).
  fold c in Hle, Hreq, Hlt.
  exists (next c - S n). split; [done|]. split; [done|].
  cbv zeta. split; [lia|].
  replace (S n + (next c - S n)) with (next c) by lia.
  destruct (result c) as [[|]|e|c'|] eqn:Ec; cbn [negb];
    rewrite ?events_after, ?result_after, ?requests_of_app, ?Hreq; cbn [events result].
  - right. split; [done|]. split.
    { unfold settled in Hlt. rewrite Ec in Hlt. specialize (Hlt eq_refl). lia. }
    rewrite bind_run.
    pose proof (publish_story2_requests tok acct cid w (next c)) as Hp.
    destruct (result (UploadAndPostStory.publish_story tok acct cid w (next c)))
      as [sid|e|c'|]; cbn [events result]; [|by rewrite Hp..].
    rewrite events_after, result_after, requests_of_app, Hp.
    destruct (truthy sid) eqn:Es; unfold_M; cbn [result events requests_of app].
    + split; [done|]. intros _. exists sid. split; [done|]. split; [done|].
      rewrite !elem_of_app, !elem_of_cons. do 3 right. right. by left.
    + by split.
  - left. rewrite print_bind, events_after. cbn. by rewrite app_nil_r.
  - left. by rewrite ?Hreq.
  - left. by rewrite ?Hreq.
  - left. by rewrite ?Hreq.
Qed.

(** [upload_and_post]: the hosting step, then [hosted] on the URL it
    returned; when the hosting step ends the process, so does the
    pipeline, with no request of its own. *)
Lemma upload_and_post_run tok acct ghtok repo branch b64 fuel path mt w n :
  let g := GithubUploader.upload_to_github ghtok repo branch b64 path w n in
  let r := UploadAndPostStory.upload_and_post tok acct ghtok repo branch b64
             fuel path mt w n in
  (result r = SysExit 1%Z ∧ next r = next g
   ∧ requests_of (events r) = requests_of (events g)
   ∧ ∀ v, result g ≠ Return v)
  ∨ ∃ media_url l,
      result g = Return media_url
      ∧ requests_of l = requests_of (events g)
      ∧ r = after l (hosted tok acct fuel media_url mt w (next g)).
Proof.
  intros g r. subst r. unfold UploadAndPostStory.upload_and_post.
  rewrite bind_run. unfold os_path_exists. cbn [result next events].
  destruct (files w path) as [f|] eqn:Ef; cbn [negb].
  2:{ left. rewrite after_nil, print_bind.
      assert (g = Ran (SysExit 1%Z) n [not_found_note path]) as ->.
      { subst g. unfold_upload. by reduce_with ltac:(rewrite ?Ef). }
      by repeat split. }
  match goal with
  | |- context [mbind ?k (try_except ?b ?h)] =>
      change k with (λ m : json, hosted tok acct fuel m mt)
  end.
  rewrite after_nil, !print_bind, bind_run, try_except_run, print_bind, bind_run.
  unfold UploadAndPostStory.upload_to_github. fold g.
  destruct (upload_outcome ghtok repo branch b64 path w n) as [[[v Hv]|Hx] _];
    fold g in Hv || fold g in Hx.
  - right. rewrite Hv. rewrite !print_bind. unfold mret, M_ret, ret.
    exists v,
      ([uploading_line mt; Print Stdout [Lit "📁 Local file: "; Val (JStr path)];
        Print Stdout [Lit "Step 1: Uploading to GitHub..."]]
       ++ events g
       ++ [Print Stdout [Lit "✅ File uploaded to GitHub"];
           Print Stdout [Lit "🔗 Public URL: "; Val v]])%list.
    split; [done|]. split.
    + rewrite !requests_of_app. cbn [requests_of app]. by rewrite app_nil_r.
    + unfold after, uploading_line. cbn [result next events app].
      f_equal; rewrite <- ?app_assoc; done.
  - left. rewrite Hx. cbn [result next events after app requests_of].
    repeat split; congruence.
Qed.

Lemma not_publish_in_hosting ghtok repo branch b64 path w n tok acct c :
  publish_request2 tok acct c
  ∉ requests_of (events (GithubUploader.upload_to_github ghtok repo branch b64 path w n)).
Proof.
  destruct (upload_requests ghtok repo branch b64 path w n)
    as (_ & [-> | [-> | [d ->]]]); intros H.
  - by apply elem_of_nil in H.
  - apply list_elem_of_singleton in H. discriminate H.
  - apply elem_of_cons in H as [H|H]; [discriminate H|].
    apply list_elem_of_singleton in H. discriminate H.
Qed.

(** X14. In [upload_and_post_story.py] too a container is promoted only
    after it has been created and polled ready: whenever [main] sends a
    publish request, the hosting step returned a URL, [upload_media]
    returned the truthy [creation_id] for that URL, and
    [check_media_status] returned [True] for it.  When [main] returns
    normally its requests were, in order: probe, PUT, container request,
    one or more status requests, publish request. *)
Theorem X14_upload_and_post_story_publishes_only_a_ready_container
    (upper : string → string) (tok acct ghtok repo branch : string)
    (b64 : list Byte.byte → string) (fuel : nat) (prog arg1 arg2 : string)
    (w : world) (n : nat) :
  let r := UploadAndPostStory.main tok acct ghtok repo branch b64 upper fuel
             [prog; arg1; arg2] w n in
  let g := GithubUploader.upload_to_github ghtok repo branch b64 arg1 w n in
  let mt := upper arg2 in
  (∀ c, publish_request2 tok acct c ∈ requests_of (events r) →
        ∃ media_url,
          result g = Return media_url
          ∧ result (UploadAndPostStory.upload_media tok acct media_url mt w (S (S n)))
            = Return c
          ∧ truthy c = true
          ∧ result (UploadAndPostStory.check_media_status tok fuel c mt w (S (S (S n))))
            = Return true)
  ∧ (result r = Return tt →
     ∃ media_url d cid sid p,
       (0 < p)%nat
       ∧ stored_at (replies w (S n)) media_url
       ∧ requests_of (events r)
         = ([probe_request ghtok repo arg1; put_request ghtok repo arg1 d;
             upload_request2 tok acct
               (UploadAndPostStory.upload_media_data media_url mt)]
            ++ replicate p (poll_request2 tok cid)
            ++ [publish_request2 tok acct cid])%list
       ∧ truthy sid = true
       ∧ story_id_line sid ∈ events r).
Proof.
  intros r g mt. subst r g. unfold UploadAndPostStory.main. fold mt.
  destruct (negb (String.eqb mt "VIDEO" || String.eqb mt "IMAGE")).
  { split; [|done]. intros c Hc. cbn in Hc. by apply elem_of_nil in Hc. }
  destruct (upload_and_post_run tok acct ghtok repo branch b64 fuel arg1 mt w n)
    as [(Hx & _ & Hreq & _) | (media_url & l & Hg & Hl & ->)].
  { split; [|by rewrite Hx]. intros c Hc. rewrite Hreq in Hc.
    by destruct (not_publish_in_hosting ghtok repo branch b64 arg1 w n tok acct c). }
  destruct (upload_return ghtok repo branch b64 arg1 w n media_url Hg)
    as (Hstored & Hnext & d & Hgreq).
  rewrite Hnext.
  rewrite events_after, result_after, requests_of_app, Hl, Hgreq.
  assert (∀ c tail,
            publish_request2 tok acct c
            ∈ ([probe_request ghtok repo arg1; put_request ghtok repo arg1 d] ++ tail)%list →
            publish_request2 tok acct c ∈ tail) as Hskip.
  { intros c tail Hc. apply elem_of_app in Hc as [Hc|Hc]; [|done].
    apply elem_of_cons in Hc as [Hc|Hc]; [discriminate Hc|].
    apply list_elem_of_singleton in Hc. discriminate Hc. }
  destruct (hosted_requests tok acct fuel media_url mt w (S (S n)))
    as [[Hr Hno] | (cid & p & Hu & Ht & Hp' & [[Hr Hno] | (Hready & Hp & Hr & Hok)])];
    rewrite Hr.
  - split; [|done]. intros c Hc. apply Hskip, list_elem_of_singleton in Hc.
    discriminate Hc.
  - split; [|done]. intros c Hc. apply Hskip in Hc.
    rewrite <- (app_nil_r (replicate _ _)) in Hc.
    apply publish_among_polls2 in Hc as [Hc|Hc]; [discriminate Hc|].
    by apply elem_of_nil in Hc.
  - split.
    + intros c Hc. apply Hskip in Hc.
      apply publish_among_polls2 in Hc as [Hc|Hc]; [discriminate Hc|].
      apply list_elem_of_singleton, publish_request2_inj in Hc. subst c.
      by exists media_url.
    + intros Hret. destruct (Hok Hret) as (sid & Hsid & Htr & Hin).
      exists media_url, d, cid, sid, p. repeat split; try done.
      apply elem_of_app. by right.
Qed.

(** X15. The container is created from the URL the content host
    returned: when [main] of [upload_and_post_story.py] gets past its
    argument check and [upload_to_github] returns [media_url] (the
    [download_url] of the PUT reply), the next request is the container
    request whose body is built from [media_url] and the uppercased
    media kind. *)
Theorem X15_container_request_carries_the_hosted_url
    (upper : string → string) (tok acct ghtok repo branch : string)
    (b64 : list Byte.byte → string) (fuel : nat) (prog arg1 arg2 : string)
    (w : world) (n : nat) (media_url : json) :
  let r := UploadAndPostStory.main tok acct ghtok repo branch b64 upper fuel
             [prog; arg1; arg2] w n in
  let g := GithubUploader.upload_to_github ghtok repo branch b64 arg1 w n in
  let mt := upper arg2 in
  mt = "VIDEO" ∨ mt = "IMAGE" →
  result g = Return media_url →
  stored_at (replies w (S n)) media_url
  ∧ ∃ d tail,
      requests_of (events r)
      = ([probe_request ghtok repo arg1; put_request ghtok repo arg1 d;
          upload_request2 tok acct (UploadAndPostStory.upload_media_data media_url mt)]
         ++ tail)%list.
Proof.
  intros r g mt Hmt Hg. subst r g. unfold UploadAndPostStory.main. fold mt.
  assert (String.eqb mt "VIDEO" || String.eqb mt "IMAGE" = true) as ->.
  { destruct Hmt as [-> | ->]; reflexivity. }
  cbn [negb].
  destruct (upload_return ghtok repo branch b64 arg1 w n media_url Hg)
    as (Hstored & Hnext & d & Hgreq).
  split; [done|]. exists d.
  destruct (upload_and_post_run tok acct ghtok repo branch b64 fuel arg1 mt w n)
    as [(_ & _ & _ & Hno) | (v & l & Hv & Hl & ->)].
  { by destruct (Hno media_url). }
  assert (v = media_url) as -> by congruence.
  rewrite Hnext, events_after, requests_of_app, Hl, Hgreq.
  destruct (hosted_requests tok acct fuel media_url mt w (S (S n)))
    as [[Hr _] | (cid & p & _ & _ & _ & [[Hr _] | (_ & _ & Hr & _)])];
    rewrite Hr; by eexists.
Qed.

(** X15 on the end-to-end scenario. *)
Lemma X15_witness :
  ∃ d tail,
    requests_of (events scenario_run)
    = ([probe_request "G" "o/r" "photo.png"; put_request "G" "o/r" "photo.png" d;
        upload_request2 "T" "A"
          (UploadAndPostStory.upload_media_data (JStr "https://host/media/photo.png")
             "IMAGE")]
       ++ tail)%list.
Proof.
  destruct (X15_container_request_carries_the_hosted_url upper_ascii "T" "A" "G"
              "o/r" "main" (λ _, "AA==") 1 "upload_and_post_story.py" "photo.png"
              "image" scenario 0 (JStr "https://host/media/photo.png"))
    as [_ H]; [by right | by vm_compute | exact H].
Defined.

(** X14 on the end-to-end scenario: five requests, the last one the
    promotion of the container that was created and polled. *)
Lemma X14_witness :
  ∃ media_url d cid sid p,
    requests_of (events scenario_run)
    = ([probe_request "G" "o/r" "photo.png"; put_request "G" "o/r" "photo.png" d;
        upload_request2 "T" "A"
          (UploadAndPostStory.upload_media_data media_url "IMAGE")]
       ++ replicate p (poll_request2 "T" cid)
       ++ [publish_request2 "T" "A" cid])%list
    ∧ story_id_line sid ∈ events scenario_run.
Proof.
  destruct (X14_upload_and_post_story_publishes_only_a_ready_container upper_ascii
              "T" "A" "G" "o/r" "main" (λ _, "AA==") 1 "upload_and_post_story.py"
              "photo.png" "image" scenario 0) as [_ Hok].
  destruct Hok as (media_url & d & cid & sid & p & _ & _ & Hreq & _ & Hin);
    [by vm_compute|].
  by exists media_url, d, cid, sid, p.
Defined.

(** ** Exit codes and argument checks of the entry points *)

Lemma exchange_token_back slt app_id app_secret w n :
  came_back n (ExchangeToken.exchange_token slt app_id app_secret w n).
Proof.
  unfold came_back, ExchangeToken.exchange_token.
  unfold try_except, except_RequestException, raise_for_status, response_json,
    py_in, py_getitem, py_truediv.
  unfold_M. unfold send.
  repeat (break_match; simplify_eq/=); by repeat split.
Qed.

Lemma exits_with_1_upload ghtok repo branch b64 path w n :
  exits_with_1 (GithubUploader.upload_to_github ghtok repo branch b64 path w n).
Proof.
  intros c Hc.
  destruct (upload_outcome ghtok repo branch b64 path w n) as [[[v Hv]|Hx] _];
    congruence.
Qed.

Lemma exits_with_1_return {A} (r : ran A) a : result r = Return a → exits_with_1 r.
Proof. intros H c Hc. congruence. Qed.

Ltac exits :=
  repeat match goal with
    | |- exits_with_1 (PostStory.check_media_status _ _ _ _ _) =>
        apply exits_with_1_check1
    | |- exits_with_1 (UploadAndPostStory.check_media_status _ _ _ _ _ _) =>
        apply exits_with_1_check2
    | |- exits_with_1 (GithubUploader.upload_to_github _ _ _ _ _ _ _) =>
        apply exits_with_1_upload
    | |- exits_with_1 (UploadAndPostStory.upload_to_github _ _ _ _ _ _ _) =>
        apply exits_with_1_upload
    | |- exits_with_1 (PostStory.upload_media _ _ _ _ _ _) =>
        apply (exits_with_1_came_back _ _ (upload_media1_back _ _ _ _ _ _))
    | |- exits_with_1 (UploadAndPostStory.upload_media _ _ _ _ _ _) =>
        apply (exits_with_1_came_back _ _ (upload_media2_back _ _ _ _ _ _))
    | |- exits_with_1 (PostStory.publish_story _ _ _ _ _) =>
        apply (exits_with_1_came_back _ _ (publish_story1_back _ _ _ _ _))
    | |- exits_with_1 (UploadAndPostStory.publish_story _ _ _ _ _) =>
        apply (exits_with_1_came_back _ _ (publish_story2_back _ _ _ _ _))
    | |- exits_with_1 (ExchangeToken.exchange_token _ _ _ _ _) =>
        apply (exits_with_1_came_back _ _ (exchange_token_back _ _ _ _ _))
    | |- exits_with_1 (sys_exit _ _ _) => apply exits_with_1_exit
    | |- exits_with_1 (mbind _ (print _) _ _) => apply exits_with_1_print
    | |- exits_with_1 (mbind _ (eprint _) _ _) => apply exits_with_1_eprint
    | |- exits_with_1 (mbind _ _ _ _) =>
        apply exits_with_1_bind; [|intros ? ?; cbv beta]
    | |- exits_with_1 (try_except _ _ _ _) =>
        apply exits_with_1_try;
        [|let Hk := fresh in
          intros ? ? ? Hk; unfold except_Exception in Hk; injection Hk as <-]
    | |- exits_with_1 ((if ?b then _ else _) _ _) => destruct b
    | |- exits_with_1 (print _ _ _) => by eapply exits_with_1_return
    | |- exits_with_1 (mret _ _ _) => by eapply exits_with_1_return
    | |- exits_with_1 (os_path_exists _ _ _) => by eapply exits_with_1_return
    end.

Lemma exits_with_1_post tok acct fuel media_url mt w n :
  exits_with_1 (PostStory.post tok acct fuel media_url mt w n).
Proof. unfold PostStory.post. exits. Qed.

Lemma exits_with_1_upload_and_post tok acct ghtok repo branch b64 fuel path mt w n :
  exits_with_1 (UploadAndPostStory.upload_and_post tok acct ghtok repo branch b64
                  fuel path mt w n).
Proof. unfold UploadAndPostStory.upload_and_post. exits. Qed.

Lemma exits_with_1_main1 upper tok acct fuel argv w n :
  exits_with_1 (PostStory.main tok acct upper fuel argv w n).
Proof.
  unfold PostStory.main.
  destruct argv as [|? [|? [|? [|? ?]]]]; exits. apply exits_with_1_post.
Qed.

(** X16. Every entry point that ends the process does so with exit code
    1: the three [main]s of the story and upload scripts, [post_story.py]
    run as a script, and the interactive [main] of [exchange_token.py]
    never call [sys.exit] with another code. *)
Theorem X16_the_only_exit_code_is_1
    (upper strip : string → string) (stdin : nat → string)
    (tok acct ghtok repo branch : string) (b64 : list Byte.byte → string)
    (environ : gmap string string) (fuel : nat) (argv : list string)
    (w : world) (n : nat) :
  exits_with_1 (PostStory.main tok acct upper fuel argv w n)
  ∧ exits_with_1 (UploadAndPostStory.main tok acct ghtok repo branch b64 upper
                    fuel argv w n)
  ∧ exits_with_1 (GithubUploader.main ghtok repo branch b64 argv w n)
  ∧ exits_with_1 (PostStoryScript.script upper environ fuel argv w n)
  ∧ exits_with_1 (ExchangeTokenMain.main strip stdin w n).
Proof.
  repeat apply conj.
  - apply exits_with_1_main1.
  - unfold UploadAndPostStory.main.
    destruct argv as [|? [|? [|? [|? ?]]]]; exits. apply exits_with_1_upload_and_post.
  - unfold GithubUploader.main. destruct argv as [|? [|? [|? ?]]]; exits.
  - unfold PostStoryScript.script. exits. apply exits_with_1_main1.
  - unfold ExchangeTokenMain.main. exits.
Qed.

Definition usage1 : list event :=
  [Print Stdout [Lit "Usage: python post_story.py <public_media_url> <MEDIA_TYPE>"];
   Print Stdout [Lit "       MEDIA_TYPE should be 'VIDEO' or 'IMAGE'"]].

Definition usage2 : list event :=
  [Print Stdout [Lit "Usage: python upload_and_post_story.py <local_file_path> <MEDIA_TYPE>"];
   Print Stdout [Lit "       MEDIA_TYPE should be 'VIDEO' or 'IMAGE'"]].

Definition usage3 : list event :=
  [Print Stderr [Lit "Usage: python github_uploader.py <local_file_path>"]].

(** X17. Called with a wrong number of arguments, each [main] prints its
    usage text and exits with code 1 before doing anything else: the
    story scripts want exactly two arguments after the program name and
    print to stdout, [github_uploader.py] wants exactly one and prints
    to stderr. *)
Theorem X17_wrong_argument_count_prints_usage
    (upper : string → string) (tok acct ghtok repo branch : string)
    (b64 : list Byte.byte → string) (fuel : nat) (argv : list string)
    (w : world) (n : nat) :
  (length argv ≠ 3 →
   PostStory.main tok acct upper fuel argv w n = Ran (SysExit 1%Z) n usage1
   ∧ UploadAndPostStory.main tok acct ghtok repo branch b64 upper fuel argv w n
     = Ran (SysExit 1%Z) n usage2)
  ∧ (length argv ≠ 2 →
     GithubUploader.main ghtok repo branch b64 argv w n
     = Ran (SysExit 1%Z) n usage3).
Proof.
  split; intros Hlen.
  - by destruct argv as [|? [|? [|? [|? ?]]]].
  - by destruct argv as [|? [|? [|? ?]]].
Qed.

(** X17 with no arguments at all. *)
Lemma X17_witness :
  PostStory.main "T" "A" upper_ascii 1 ["post_story.py"] (world_of [] []) 0
  = Ran (SysExit 1%Z) 0 usage1
  ∧ GithubUploader.main "G" "o/r" "main" (λ _, "AA==") ["github_uploader.py"]
      (world_of [] []) 0
    = Ran (SysExit 1%Z) 0 usage3.
Proof.
  destruct (X17_wrong_argument_count_prints_usage upper_ascii "T" "A" "G" "o/r"
              "main" (λ _, "AA==") 1 ["post_story.py"] (world_of [] []) 0)
    as [H1 _].
  destruct (X17_wrong_argument_count_prints_usage upper_ascii "T" "A" "G" "o/r"
              "main" (λ _, "AA==") 1 ["github_uploader.py"] (world_of [] []) 0)
    as [_ H2].
  split; [apply H1 | apply H2]; cbn; lia.
Defined.

(** A file that fails the local checks ends the hosting step at once. *)
Lemma upload_rejects ghtok repo branch b64 path w n :
  ¬ uploadable w path →
  let g := GithubUploader.upload_to_github ghtok repo branch b64 path w n in
  result g = SysExit 1%Z ∧ next g = n ∧ requests_of (events g) = [].
Proof.
  intros Hno g. subst g.
  destruct (files w path) as [f|] eqn:Ef.
  2:{ unfold_upload. by reduce_with ltac:(rewrite ?Ef). }
  destruct (isfile f) eqn:Ereg.
  2:{ unfold_upload. by reduce_with ltac:(rewrite ?Ef, ?Ereg). }
  destruct (getsize f >? 100 * 1024 * 1024)%Z eqn:Esz.
  { unfold_upload. by reduce_with ltac:(rewrite ?Ef, ?Ereg, ?Esz). }
  destruct Hno. exists f. split; [done|]. split; [done|]. lia.
Qed.

(** X18. [upload_and_post_story.py] sends nothing when the local file
    cannot be hosted: for a valid media kind and a path that is missing,
    is not a regular file or is larger than 100 MiB, [main] exits with
    code 1 without a single request. *)
Theorem X18_unusable_file_means_no_request
    (upper : string → string) (tok acct ghtok repo branch : string)
    (b64 : list Byte.byte → string) (fuel : nat) (prog arg1 arg2 : string)
    (w : world) (n : nat) :
  ¬ uploadable w arg1 →
  let r := UploadAndPostStory.main tok acct ghtok repo branch b64 upper fuel
             [prog; arg1; arg2] w n in
  result r = SysExit 1%Z ∧ next r = n ∧ requests_of (events r) = [].
Proof.
  intros Hno r. subst r. unfold UploadAndPostStory.main.
  destruct (negb _); [by repeat split|].
  destruct (upload_rejects ghtok repo branch b64 arg1 w n Hno) as (Hx & Hn & Hq).
  destruct (upload_and_post_run tok acct ghtok repo branch b64 fuel arg1
              (upper arg2) w n)
    as [(H1 & H2 & H3 & _) | (media_url & l & Hg & _)]; [|congruence].
  by rewrite H1, H2, H3, Hn, Hq.
Qed.

(** X18 on a concrete file system: the path is a directory. *)
Lemma X18_witness :
  let w := world_of [] [("shots", mkFile false 4096 [])] in
  result (UploadAndPostStory.main "T" "A" "G" "o/r" "main" (λ _, "AA==")
            upper_ascii 1 ["upload_and_post_story.py"; "shots"; "image"] w 0)
  = SysExit 1%Z.
Proof.
  intros w.
  apply (X18_unusable_file_means_no_request upper_ascii "T" "A" "G" "o/r" "main"
           (λ _, "AA==") 1 "upload_and_post_story.py" "shots" "image" w 0).
  intros (f & Hf & Hreg & _). vm_compute in Hf. by simplify_eq.
Defined.

(** X19. [post_story.py] refuses to run without its configuration: when
    [INSTAGRAM_ACCESS_TOKEN] or [INSTAGRAM_ACCOUNT_ID] is unset or empty
    the script prints two lines and exits with code 1 whatever its
    arguments, without a request; when both are set it is [main] run
    with these two values. *)
Theorem X19_post_story_needs_its_configuration
    (upper : string → string) (environ : gmap string string) (fuel : nat)
    (argv : list string) (w : world) (n : nat) :
  let token := environ !! "INSTAGRAM_ACCESS_TOKEN" in
  let account := environ !! "INSTAGRAM_ACCOUNT_ID" in
  let r := PostStoryScript.script upper environ fuel argv w n in
  (∀ tok acct,
     token = Some tok → account = Some acct →
     tok ≠ EmptyString → acct ≠ EmptyString →
     r = PostStory.main tok acct upper fuel argv w n)
  ∧ (token = None ∨ token = Some EmptyString
     ∨ account = None ∨ account = Some EmptyString →
     result r = SysExit 1%Z ∧ next r = n ∧ requests_of (events r) = []
     ∧ length (events r) = 2).
Proof.
  intros token account r. subst r token account. unfold PostStoryScript.script.
  split.
  - intros tok acct -> -> Ht Ha. cbn [PostStoryScript.unset default].
    apply String.eqb_neq in Ht, Ha. by rewrite Ht, Ha.
  - intros H.
    assert (PostStoryScript.unset (environ !! "INSTAGRAM_ACCESS_TOKEN")
            || PostStoryScript.unset (environ !! "INSTAGRAM_ACCOUNT_ID") = true) as ->.
    { destruct H as [-> | [-> | [-> | ->]]]; cbn; rewrite ?orb_true_r; done. }
    done.
Qed.

(** X19 with an empty environment and with a complete one. *)
Lemma X19_witness :
  result (PostStoryScript.script upper_ascii ∅ 1
            ["post_story.py"; "https://host/v.mp4"; "VIDEO"] (world_of [] []) 0)
  = SysExit 1%Z
  ∧ PostStoryScript.script upper_ascii
      {[ "INSTAGRAM_ACCESS_TOKEN" := "T"; "INSTAGRAM_ACCOUNT_ID" := "A" ]} 1
      ["post_story.py"; "https://host/v.mp4"; "VIDEO"] (world_of [] []) 0
    = PostStory.main "T" "A" upper_ascii 1
        ["post_story.py"; "https://host/v.mp4"; "VIDEO"] (world_of [] []) 0.
Proof.
  split.
  - destruct (X19_post_story_needs_its_configuration upper_ascii ∅ 1
                ["post_story.py"; "https://host/v.mp4"; "VIDEO"] (world_of [] []) 0)
      as [_ H].
    apply H. by left.
  - destruct (X19_post_story_needs_its_configuration upper_ascii
                {[ "INSTAGRAM_ACCESS_TOKEN" := "T"; "INSTAGRAM_ACCOUNT_ID" := "A" ]} 1
                ["post_story.py"; "https://host/v.mp4"; "VIDEO"] (world_of [] []) 0)
      as [H _].
    by apply H.
Defined.

(** ** The interactive token exchange *)

(** [str.strip] restricted to the ASCII blanks, for closed examples. *)
Definition is_blank (c : ascii) : bool :=
  let k := nat_of_ascii c in
  (Nat.leb 9 k && Nat.leb k 13) || Nat.eqb k 32.

Fixpoint lstrip_ascii (s : string) : string :=
  match s with
  | EmptyString => EmptyString
  | String c rest => if is_blank c then lstrip_ascii rest else s
  end.

Fixpoint rstrip_ascii (s : string) : string :=
  match s with
  | EmptyString => EmptyString
  | String c rest =>
      match rstrip_ascii rest with
      | EmptyString => if is_blank c then EmptyString else String c EmptyString
      | kept => String c kept
      end
  end.

Definition strip_ascii (s : string) : string := rstrip_ascii (lstrip_ascii s).

Example strip_ascii_both_ends : strip_ascii "  KEY = a b  " = "KEY = a b".
Proof. reflexivity. Qed.

(** The answers typed at the three prompts, in order. *)
Definition typed (l : list string) : nat → string := λ k, nth k l EmptyString.

(** X20. [exchange_token.py] asks for the app id, the app secret and the
    short-lived token, in this order, and strips each answer.  If any of
    the three is then empty it exits with code 1 without a request.
    Otherwise it makes exactly one request, in which the first answer is
    [client_id], the second [client_secret] and the third
    [fb_exchange_token]; it returns normally when [exchange_token] gave
    back a truthy token and exits with code 1 when it gave back [None]
    or another falsy value. *)
Theorem X20_exchange_main_fields_and_outcome
    (strip : string → string) (stdin : nat → string) (w : world) (n : nat) :
  let app_id := strip (stdin 0) in
  let app_secret := strip (stdin 1) in
  let short_lived_token := strip (stdin 2) in
  let r := ExchangeTokenMain.main strip stdin w n in
  let e := ExchangeToken.exchange_token short_lived_token app_id app_secret w n in
  (app_id = EmptyString ∨ app_secret = EmptyString
   ∨ short_lived_token = EmptyString →
   result r = SysExit 1%Z ∧ next r = n ∧ requests_of (events r) = [])
  ∧ (app_id ≠ EmptyString → app_secret ≠ EmptyString →
     short_lived_token ≠ EmptyString →
     requests_of (events r) = [token_request short_lived_token app_id app_secret]
     ∧ next r = S n
     ∧ ∀ token, result e = Return token →
                result r = if truthy token then Return tt else SysExit 1%Z).
Proof.
  intros app_id app_secret short_lived_token r e. subst r.
  unfold ExchangeTokenMain.main. fold app_id app_secret short_lived_token.
  rewrite !print_bind. split.
  - intros H.
    assert (ExchangeTokenMain.blank app_id || ExchangeTokenMain.blank app_secret
            || ExchangeTokenMain.blank short_lived_token = true) as ->.
    { destruct H as [-> | [-> | ->]]; cbn; rewrite ?orb_true_r; done. }
    rewrite print_bind. by repeat split.
  - intros H1 H2 H3. unfold ExchangeTokenMain.blank.
    apply String.eqb_neq in H1, H2, H3. rewrite H1, H2, H3. cbn [orb].
    rewrite print_bind, bind_run. fold e.
    destruct (exchange_token_one_request short_lived_token app_id app_secret w n)
      as [Hn Hq].
    fold e in Hn, Hq.
    repeat (rewrite events_after || rewrite next_after || rewrite result_after).
    cbn [app requests_of].
    destruct (result e) as [token|x|c|] eqn:Ee; cbn [events next result].
    + rewrite events_after, next_after, result_after, requests_of_app, Hq.
      destruct (truthy token) eqn:Et; cbn [negb]; rewrite ?print_bind;
        (split; [done|]; split; [done|]);
        intros token' [= <-]; by rewrite Et.
    + by rewrite Hq.
    + by rewrite Hq.
    + by rewrite Hq.
Qed.

(** X20 on concrete answers: a blank secret, then three good answers. *)
Lemma X20_witness :
  result (ExchangeTokenMain.main strip_ascii (typed ["1234"; "   "; "EAAshort"])
            (world_of [] []) 0) = SysExit 1%Z
  ∧ requests_of (events (ExchangeTokenMain.main strip_ascii
                           (typed [" 1234 "; "s3cret"; "EAAshort "])
                           (world_of [reply_ok {[ "access_token" := JStr "EAAlong" ]}]
                                     []) 0))
    = [token_request "EAAshort" "1234" "s3cret"].
Proof.
  split.
  - destruct (X20_exchange_main_fields_and_outcome strip_ascii
                (typed ["1234"; "   "; "EAAshort"]) (world_of [] []) 0) as [H _].
    apply H. right. by left.
  - destruct (X20_exchange_main_fields_and_outcome strip_ascii
                (typed [" 1234 "; "s3cret"; "EAAshort "])
                (world_of [reply_ok {[ "access_token" := JStr "EAAlong" ]}] []) 0)
      as [_ H].
    by apply H.
Defined.

(** ** The .env loader *)







(** ** Where the file lands on the content host *)

(** ['/' in s], as [basename] looks for it. *)
Definition has_slash (s : string) : bool :=
  match index 0 "/" s with Some _ => true | None => false end.

Lemma has_slash_cons c s :
  has_slash (String c s) = Ascii.eqb c "/" || has_slash s.
Proof.
  unfold has_slash. cbn [index String.prefix].
  destruct (ascii_dec "/" c) as [<-|Hne].
  - by destruct s.
  - assert (Ascii.eqb c "/" = false) as ->.
    { apply Ascii.eqb_neq. congruence. }
    by destruct (index 0 "/" s).
Qed.

Lemma basename_plain name : has_slash name = false → basename name = name.
Proof.
  destruct name as [|c rest]; [done|]. rewrite has_slash_cons.
  intros H. apply orb_false_iff in H as [Hc Hrest].
  cbn [basename]. rewrite Hc. unfold has_slash in Hrest.
  by destruct (index 0 "/" rest).
Qed.

Lemma has_slash_middle dir name : has_slash (dir +:+ "/" +:+ name) = true.
Proof.
  induction dir as [|c dir IH].
  - change (EmptyString +:+ "/" +:+ name) with (String "/" name).
    by rewrite has_slash_cons.
  - change (String c dir +:+ "/" +:+ name) with (String c (dir +:+ "/" +:+ name)).
    by rewrite has_slash_cons, IH, orb_true_r.
Qed.

Lemma basename_after_slash dir name :
  has_slash name = false → basename (dir +:+ "/" +:+ name) = name.
Proof.
  intros Hname. induction dir as [|c dir IH].
  - change (EmptyString +:+ "/" +:+ name) with (String "/" name).
    cbn [basename]. change (Ascii.eqb "/" "/") with true. cbv iota.
    by apply basename_plain.
  - change (String c dir +:+ "/" +:+ name) with (String c (dir +:+ "/" +:+ name)).
    cbn [basename]. destruct (Ascii.eqb c "/"); [done|].
    pose proof (has_slash_middle dir name) as H. unfold has_slash in H.
    by destruct (index 0 "/" (dir +:+ "/" +:+ name)).
Qed.

(** X23. The object is stored under [media/] plus the last component of
    the local path, whatever directory the file is in: for a file name
    without ['/'], every request that [upload_to_github] sends for
    [dir/name] goes to the contents URL of [media/name]. *)
Theorem X23_object_path_is_media_plus_file_name
    (tok repo branch : string) (b64 : list Byte.byte → string)
    (dir name : string) (w : world) (n : nat) (rq : request) :
  has_slash name = false →
  rq ∈ requests_of (events (GithubUploader.upload_to_github tok repo branch b64
                              (dir +:+ "/" +:+ name) w n)) →
  url rq = GithubUploader.api_url repo ("media/" +:+ name).
Proof.
  intros Hname Hrq.
  pose proof (basename_after_slash dir name Hname) as Hbase.
  destruct (upload_requests tok repo branch b64 (dir +:+ "/" +:+ name) w n)
    as (_ & [H | [H | [d H]]]); rewrite H in Hrq.
  - by apply elem_of_nil in Hrq.
  - apply list_elem_of_singleton in Hrq as ->.
    unfold probe_request. cbn [url]. by rewrite Hbase.
  - apply elem_of_cons in Hrq as [-> | Hrq];
      [|apply list_elem_of_singleton in Hrq as ->];
      unfold probe_request, put_request; cbn [url]; by rewrite Hbase.
Qed.

(** X23 on a concrete path. *)
Lemma X23_witness :
  let w := world_of [Response (mkResponse 404 "Not Found" None)]
                    [("shots/2024/photo.png", small_file)] in
  url (probe_request "G" "o/r" "shots/2024/photo.png")
  = GithubUploader.api_url "o/r" "media/photo.png".
Proof.
  intros w.
  apply (X23_object_path_is_media_plus_file_name "G" "o/r" "main" (λ _, "AA==")
           "shots/2024" "photo.png" w 0); [reflexivity|].
  vm_compute. left.
Defined.

(** ** What the pipelines do when a step fails *)

(** X24. [github_uploader.py] keeps stdout clean for piping: [main]
    writes to stdout the returned URL and nothing else; when the upload
    does not return, stdout stays empty and the exit code is 1. *)
Theorem X24_github_main_prints_only_the_url
    (ghtok repo branch : string) (b64 : list Byte.byte → string)
    (prog path : string) (w : world) (n : nat) :
  let g := GithubUploader.upload_to_github ghtok repo branch b64 path w n in
  let r := GithubUploader.main ghtok repo branch b64 [prog; path] w n in
  (∀ v, result g = Return v →
        result r = Return tt ∧ stdout_of (events r) = [[Val v]]
        ∧ stored_at (replies w (S n)) v)
  ∧ ((∀ v, result g ≠ Return v) →
     result r = SysExit 1%Z ∧ stdout_of (events r) = []).
Proof.
  intros g r. subst r g. unfold GithubUploader.main. rewrite bind_run.
  destruct (upload_outcome ghtok repo branch b64 path w n) as [[[v Hv]|Hx] Hout].
  - rewrite Hv. split; [|intros H; by destruct (H v)].
    intros v' [= <-]. rewrite result_after, events_after, stdout_of_app, Hout.
    split; [done|]. split; [done|].
    by destruct (upload_return ghtok repo branch b64 path w n v Hv).
  - rewrite Hx. split; [done|]. intros _. by cbn [result events].
Qed.

(** X24 on a concrete world: a 404 probe and a 201 PUT. *)
Lemma X24_witness :
  let w := world_of [Response (mkResponse 404 "Not Found" None);
                     created "https://host/media/photo.png"]
                    [("photo.png", small_file)] in
  stdout_of (events (GithubUploader.main "G" "o/r" "main" (λ _, "AA==")
                       ["github_uploader.py"; "photo.png"] w 0))
  = [[Val (JStr "https://host/media/photo.png")]].
Proof.
  intros w.
  destruct (X24_github_main_prints_only_the_url "G" "o/r" "main" (λ _, "AA==")
              "github_uploader.py" "photo.png" w 0) as [H _].
  by destruct (H (JStr "https://host/media/photo.png") eq_refl) as (_ & -> & _).
Defined.

(** X25. [post_story.py] stops at the first step that fails.  When
    [upload_media] comes back with [None] (or any falsy id), [main]
    exits with code 1 after that one request, without polling.  When
    the poll returns [False], [main] exits with code 1 after the status
    requests, without a publish request. *)
Theorem X25_post_story_stops_at_the_failed_step
    (upper : string → string) (tok acct : string) (fuel : nat)
    (prog arg1 arg2 : string) (w : world) (n : nat) (cid : json) :
  let mt := upper arg2 in
  let r := PostStory.main tok acct upper fuel [prog; arg1; arg2] w n in
  let up := upload_request1 tok acct (PostStory.upload_media_data (JStr arg1) mt) in
  let c := PostStory.check_media_status tok fuel cid w (S n) in
  mt = "VIDEO" ∨ mt = "IMAGE" →
  result (PostStory.upload_media tok acct (JStr arg1) mt w n) = Return cid →
  (truthy cid = false →
   result r = SysExit 1%Z ∧ next r = S n ∧ requests_of (events r) = [up])
  ∧ (truthy cid = true → result c = Return false →
     result r = SysExit 1%Z ∧ next r = next c
     ∧ requests_of (events r)
       = up :: replicate (next c - S n) (poll_request1 tok cid)).
Proof.
  intros mt r up c Hmt Hu. subst r c. unfold PostStory.main. fold mt.
  assert (String.eqb mt "VIDEO" || String.eqb mt "IMAGE" = true) as ->.
  { destruct Hmt as [-> | ->]; reflexivity. }
  cbn [negb]. unfold PostStory.post. rewrite !print_bind, bind_run, Hu.
  pose proof (upload_media1_requests tok acct (JStr arg1) mt w n) as Hq.
  destruct (upload_media1_back tok acct (JStr arg1) mt w n) as (Hn & _).
  fold up in Hq.
  repeat (rewrite events_after || rewrite next_after || rewrite result_after).
  cbn [app requests_of]. rewrite requests_of_app, Hq, Hn. split.
  - intros ->. cbn [negb]. rewrite print_bind. by repeat split.
  - intros -> Hc. cbn [negb]. rewrite bind_run, Hc.
    destruct (check1_counts tok cid w fuel (S n)) as (_ & Hreq & _).
    repeat (rewrite events_after || rewrite next_after || rewrite result_after).
    cbn [negb]. rewrite print_bind.
    repeat (rewrite events_after || rewrite next_after || rewrite result_after).
    rewrite requests_of_app, Hreq. cbn. by rewrite app_nil_r.
Qed.

(** X25 on a concrete world: the service rejects the container. *)
Lemma X25_witness :
  let w := world_of [reply_ok {[ "error" := JStr "unsupported" ]}] [] in
  result (PostStory.main "T" "A" upper_ascii 3
            ["post_story.py"; "https://host/v.mp4"; "video"] w 0) = SysExit 1%Z
  ∧ next (PostStory.main "T" "A" upper_ascii 3
            ["post_story.py"; "https://host/v.mp4"; "video"] w 0) = 1.
Proof.
  intros w.
  destruct (X25_post_story_stops_at_the_failed_step upper_ascii "T" "A" 3
              "post_story.py" "https://host/v.mp4" "video" w 0 JNull)
    as [H _]; [by left | reflexivity |].
  destruct (H eq_refl) as (H1 & H2 & _). by split.
Defined.
